(** * The two Vite configuration modules of the [with-tsconfig-paths] workspace

    [packages/lib/vite.config.ts] and [packages/app/vite.config.ts] each
    evaluate one expression, [defineConfig({...})], and export its value.
    The library module is a literal.  The application module computes one
    string, [fileURLToPath(new URL('../lib/src', import.meta.url))].

    The development embeds both module bodies together with the library
    functions they call: the part of the URL Standard's basic URL parser
    that [new URL] runs on a relative reference, ECMAScript's
    [decodeURIComponent], and Node's [fileURLToPath]. *)

From stdpp Require Import base option list strings gmap.
From Stdlib Require Import Ascii String NArith Lia.

Local Open Scope N_scope.

(** ** Outcomes of evaluation *)

(** The exceptions the called library functions raise. *)
Inductive JSError : Type :=
  | TypeError_InvalidURL        (* new URL: base or reference does not parse *)
  | ERR_INVALID_URL_SCHEME      (* fileURLToPath: protocol is not file:      *)
  | ERR_INVALID_FILE_URL_HOST   (* fileURLToPath, POSIX: non-empty host      *)
  | ERR_INVALID_FILE_URL_PATH   (* fileURLToPath: encoded separator, no drive *)
  | URIError.                   (* decodeURIComponent: malformed escape       *)

(** A JavaScript evaluation returns a value or throws.  [OutsideModel] marks
    arguments of [new URL] that the embedded part of the parser does not
    cover; no call made by the two modules reaches it
    (see [URL_constructor_embedded]). *)
Inductive Outcome (A : Type) : Type :=
  | Returns (a : A)
  | Throws (e : JSError)
  | OutsideModel.
Arguments Returns {A} a.
Arguments Throws {A} e.
Arguments OutsideModel {A}.

Global Instance Outcome_bind : MBind Outcome := fun A B k m =>
  match m with
  | Returns a => k a
  | Throws e => Throws e
  | OutsideModel => OutsideModel
  end.
Global Instance Outcome_ret : MRet Outcome := fun A a => Returns a.
Global Instance Outcome_fmap : FMap Outcome := fun A B f m =>
  match m with
  | Returns a => Returns (f a)
  | Throws e => Throws e
  | OutsideModel => OutsideModel
  end.

Definition returned {A} (m : Outcome A) : bool :=
  match m with Returns _ => true | _ => false end.

Definition threw {A} (m : Outcome A) : bool :=
  match m with Throws _ => true | _ => false end.

(** ** Characters and strings

    A JavaScript string is represented by the bytes of its UTF-8 encoding.
    The pathname of a parsed URL is ASCII, so for it bytes and UTF-16 code
    units coincide. *)

Definition code (c : ascii) : N := N_of_ascii c.

Definition in_range (lo hi : N) (c : ascii) : bool :=
  (lo <=? code c) && (code c <=? hi).

Definition is_ascii_upper_alpha : ascii -> bool := in_range 65 90.
Definition is_ascii_lower_alpha : ascii -> bool := in_range 97 122.
Definition is_ascii_digit : ascii -> bool := in_range 48 57.
Definition is_ascii_alpha (c : ascii) : bool :=
  is_ascii_upper_alpha c || is_ascii_lower_alpha c.
Definition is_ascii_alphanumeric (c : ascii) : bool :=
  is_ascii_digit c || is_ascii_alpha c.

Definition ascii_lowercase_char (c : ascii) : ascii :=
  if is_ascii_upper_alpha c then ascii_of_N (code c + 32) else c.

Fixpoint ascii_lowercase (s : string) : string :=
  match s with
  | EmptyString => EmptyString
  | String c r => String (ascii_lowercase_char c) (ascii_lowercase r)
  end.

Fixpoint string_forallb (p : ascii -> bool) (s : string) : bool :=
  match s with
  | EmptyString => true
  | String c r => p c && string_forallb p r
  end.

(** [s.replaceAll(a, b)] for single characters. *)
Fixpoint replace_char (a b : ascii) (s : string) : string :=
  match s with
  | EmptyString => EmptyString
  | String c r => String (if Ascii.eqb c a then b else c) (replace_char a b r)
  end.

(** ** URL Standard: URL records and relative references *)

Module URLStd.

(** A URL's path is an opaque string ([mailto:], [data:]) or a list of
    segments. *)
Inductive URLPath : Type :=
  | OpaquePath (s : string)
  | Segments (segs : list string).

(** The URL record.  A host is kept in its serialized form. *)
Record URLRecord : Type := mkURL {
  scheme : string;
  username : string;
  password : string;
  host : option string;
  port : option N;
  path : URLPath;
  query : option string;
  fragment : option string
}.

Definition has_opaque_path (u : URLRecord) : bool :=
  match path u with OpaquePath _ => true | Segments _ => false end.

(** A Windows drive letter: an ASCII alpha followed by [:] or [|]. *)
Definition is_windows_drive_letter (s : string) : bool :=
  match s with
  | String a (String b EmptyString) =>
      is_ascii_alpha a && (Ascii.eqb b ":"%char || Ascii.eqb b "|"%char)
  | _ => false
  end.

Definition is_normalized_windows_drive_letter (s : string) : bool :=
  match s with
  | String a (String b EmptyString) => is_ascii_alpha a && Ascii.eqb b ":"%char
  | _ => false
  end.

(** A string starts with a Windows drive letter: its first two code points
    are one, and it ends there or goes on with [/], [\], [?] or [#]. *)
Definition starts_with_windows_drive_letter (s : string) : bool :=
  match s with
  | String a (String b r) =>
      is_windows_drive_letter (String a (String b EmptyString)) &&
      match r with
      | EmptyString => true
      | String c _ =>
          Ascii.eqb c "/"%char || Ascii.eqb c "\"%char ||
          Ascii.eqb c "?"%char || Ascii.eqb c "#"%char
      end
  | _ => false
  end.

(** Single-dot and double-dot URL path segments, compared ASCII
    case-insensitively. *)
Definition is_single_dot (buffer : string) : bool :=
  bool_decide (ascii_lowercase buffer ∈ ["."; "%2e"]).

Definition is_double_dot (buffer : string) : bool :=
  bool_decide (ascii_lowercase buffer ∈ [".."; ".%2e"; "%2e."; "%2e%2e"]).

(** Shorten a path: remove the last segment, except that a [file:] URL keeps
    a lone normalized Windows drive letter. *)
Definition shorten_segments (sch : string) (segs : list string)
    : list string :=
  match segs with
  | [d] =>
      if bool_decide (sch = "file") && is_normalized_windows_drive_letter d
      then segs else []
  | _ => removelast segs
  end.

Definition shorten (u : URLRecord) : URLRecord :=
  match path u with
  | OpaquePath _ => u
  | Segments segs =>
      mkURL (scheme u) (username u) (password u) (host u) (port u)
            (Segments (shorten_segments (scheme u) segs)) (query u) (fragment u)
  end.

Definition set_segments (u : URLRecord) (segs : list string) : URLRecord :=
  mkURL (scheme u) (username u) (password u) (host u) (port u)
        (Segments segs) (query u) (fragment u).

Definition segments_of (u : URLRecord) : list string :=
  match path u with OpaquePath _ => [] | Segments segs => segs end.

(** *** The basic URL parser on a plain relative reference

    [new URL(url, base)] runs the basic URL parser on [url] with the parsed
    [base].  The states embedded are the ones a reference made of unreserved
    characters and [/], not starting with [/], goes through: scheme start and
    scheme (which find no scheme), no scheme, relative or file, and path.
    Such a reference needs no percent-encoding and holds no [\], [?] or [#]. *)

Definition is_plain_char (c : ascii) : bool :=
  is_ascii_alphanumeric c ||
  bool_decide (c ∈ ["-"; "."; "_"; "~"; "/"]%char).

Definition is_plain_reference (input : string) : bool :=
  string_forallb is_plain_char input &&
  match input with String "/"%char _ => false | _ => true end.

Inductive ParseResult : Type :=
  | Parsed (u : URLRecord)
  | Failure
  | NotEmbedded.

(** Path state, at the end of a segment ([c] is [/] or the end of input). *)
Definition path_state_segment (c_is_slash : bool) (buffer : string)
    (url : URLRecord) : URLRecord :=
  if is_double_dot buffer then
    let url := shorten url in
    if c_is_slash then url else set_segments url (segments_of url ++ [""])
  else if is_single_dot buffer && negb c_is_slash then
    set_segments url (segments_of url ++ [""])
  else if negb (is_single_dot buffer) then
    let buffer :=
      match buffer with
      | String a (String _ EmptyString) =>
          if bool_decide (scheme url = "file") &&
             bool_decide (segments_of url = []) &&
             is_windows_drive_letter buffer
          then String a (String ":"%char EmptyString) else buffer
      | _ => buffer
      end in
    set_segments url (segments_of url ++ [buffer])
  else url.

(** Path state: [input] is what is left from the pointer on. *)
Fixpoint path_state (input buffer : string) (url : URLRecord) : URLRecord :=
  match input with
  | EmptyString => path_state_segment false buffer url
  | String c rest =>
      if Ascii.eqb c "/"%char
      then path_state rest EmptyString (path_state_segment true buffer url)
      else path_state rest (buffer +:+ String c EmptyString) url
  end.

(** Relative state ([base] is not a [file:] URL). *)
Definition relative_state (input : string) (base : URLRecord) : URLRecord :=
  match input with
  | EmptyString =>
      mkURL (scheme base) (username base) (password base) (host base)
            (port base) (path base) (query base) None
  | _ =>
      let url := mkURL (scheme base) (username base) (password base)
                       (host base) (port base) (path base) None None in
      path_state input EmptyString (shorten url)
  end.

(** File state ([base] is a [file:] URL). *)
Definition file_state (input : string) (base : URLRecord) : URLRecord :=
  match input with
  | EmptyString =>
      mkURL "file" EmptyString EmptyString (host base) None (path base)
            (query base) None
  | _ =>
      let url := mkURL "file" EmptyString EmptyString (host base) None
                       (path base) None None in
      let url :=
        if starts_with_windows_drive_letter input
        then set_segments url [] else shorten url in
      path_state input EmptyString url
  end.

(** No scheme state. *)
Definition no_scheme_state (input : string) (base : option URLRecord)
    : ParseResult :=
  match base with
  | None => Failure
  | Some b =>
      if has_opaque_path b then Failure
      else if bool_decide (scheme b = "file")
      then Parsed (file_state input b)
      else Parsed (relative_state input b)
  end.

Definition basic_URL_parser (input : string) (base : option URLRecord)
    : ParseResult :=
  if is_plain_reference input then no_scheme_state input base else NotEmbedded.

(** The [URL] constructor.  [parsedBase] is the basic URL parser's result on
    the [base] argument: [None] when that string does not parse. *)
Definition URL_constructor (url : string) (parsedBase : option URLRecord)
    : Outcome URLRecord :=
  match parsedBase with
  | None => Throws TypeError_InvalidURL
  | Some b =>
      match basic_URL_parser url (Some b) with
      | Parsed u => Returns u
      | Failure => Throws TypeError_InvalidURL
      | NotEmbedded => OutsideModel
      end
  end.

(** The getters [fileURLToPath] reads. *)
Definition protocol (u : URLRecord) : string := scheme u +:+ ":".

Definition hostname (u : URLRecord) : string :=
  match host u with None => EmptyString | Some h => h end.

(** The URL path serializer: every segment preceded by [/]. *)
Fixpoint serialize_segments (segs : list string) : string :=
  match segs with
  | [] => EmptyString
  | seg :: r => "/" +:+ seg +:+ serialize_segments r
  end.

Definition pathname (u : URLRecord) : string :=
  match path u with
  | OpaquePath s => s
  | Segments segs => serialize_segments segs
  end.

End URLStd.

(** ** ECMAScript: [decodeURIComponent] *)

Module ES.

Definition hex_digit (c : ascii) : option N :=
  if is_ascii_digit c then Some (code c - 48)
  else if in_range 97 102 c then Some (code c - 87)
  else if in_range 65 70 c then Some (code c - 55)
  else None.

Definition ParseHexOctet (h1 h2 : ascii) : option N :=
  match hex_digit h1, hex_digit h2 with
  | Some a, Some b => Some (16 * a + b)
  | _, _ => None
  end.

(** The number of leading 1 bits of an octet. *)
Definition leading_ones (B : N) : nat :=
  if B <? 128 then 0%nat
  else if B <? 192 then 1%nat
  else if B <? 224 then 2%nat
  else if B <? 240 then 3%nat
  else if B <? 248 then 4%nat
  else 5%nat.

Definition is_continuation (b : N) : bool := (128 <=? b) && (b <=? 191).

(** The code point a list of octets encodes in UTF-8, when it is a valid
    encoding: continuation octets, no overlong form, no surrogate, at most
    U+10FFFF. *)
Definition utf8_code_point (Octets : list N) : option N :=
  match Octets with
  | [b0; b1] =>
      let V := (b0 - 192) * 64 + (b1 - 128) in
      if is_continuation b1 && (128 <=? V) then Some V else None
  | [b0; b1; b2] =>
      let V := (b0 - 224) * 4096 + (b1 - 128) * 64 + (b2 - 128) in
      if is_continuation b1 && is_continuation b2 && (2048 <=? V) &&
         negb ((55296 <=? V) && (V <=? 57343))
      then Some V else None
  | [b0; b1; b2; b3] =>
      let V := (b0 - 240) * 262144 + (b1 - 128) * 4096 +
               (b2 - 128) * 64 + (b3 - 128) in
      if is_continuation b1 && is_continuation b2 && is_continuation b3 &&
         (65536 <=? V) && (V <=? 1114111)
      then Some V else None
  | _ => None
  end.

Fixpoint string_of_octets (Octets : list N) : string :=
  match Octets with
  | [] => EmptyString
  | b :: r => String (ascii_of_N b) (string_of_octets r)
  end.

(** The loop of [Decode] with an empty set of preserved escapes.
    [pending = None] is the outer loop at index [k];
    [pending = Some (j, Octets)] is the inner loop that still reads [j]
    continuation escapes of a multi-octet sequence.  The result string holds a decoded code point as
    its UTF-8 octets. *)
Fixpoint Decode (pending : option (nat * list N)) (s : string)
    : Outcome string :=
  match pending with
  | None =>
      match s with
      | EmptyString => Returns EmptyString
      | String C rest =>
          if Ascii.eqb C "%"%char then
            match rest with
            | String h1 (String h2 rest') =>
                match ParseHexOctet h1 h2 with
                | None => Throws URIError
                | Some B =>
                    match leading_ones B with
                    | 0%nat => String (ascii_of_N B) <$> Decode None rest'
                    | 1%nat => Throws URIError
                    | S (S n) =>
                        if (n <? 3)%nat
                        then Decode (Some (S n, [B])) rest'
                        else Throws URIError
                    end
                end
            | _ => Throws URIError
            end
          else String C <$> Decode None rest
      end
  | Some (j, Octets) =>
      match s with
      | String C (String h1 (String h2 rest')) =>
          if Ascii.eqb C "%"%char then
            match ParseHexOctet h1 h2 with
            | None => Throws URIError
            | Some continuationByte =>
                let Octets := Octets ++ [continuationByte] in
                match j with
                | 0%nat | 1%nat =>
                    match utf8_code_point Octets with
                    | None => Throws URIError
                    | Some _ =>
                        String.append (string_of_octets Octets)
                          <$> Decode None rest'
                    end
                | S j' => Decode (Some (j', Octets)) rest'
                end
            end
          else Throws URIError
      | _ => Throws URIError
      end
  end.

Definition decodeURIComponent (s : string) : Outcome string := Decode None s.

End ES.

(** ** Node: [fileURLToPath] of [node:url] *)

Inductive Platform : Type := posix | win32.

Module NodeUrl.
Import URLStd.

(** Whether [pathname] holds [%2f] or [%2F]; with [backslash] also [%5c] or
    [%5C].  The loop looks at every [%] of the string. *)
Fixpoint has_encoded_separator (backslash : bool) (pathname : string) : bool :=
  match pathname with
  | EmptyString => false
  | String c rest =>
      (Ascii.eqb c "%"%char &&
       match rest with
       | String d (String t _) =>
           let third := N.lor (code t) 32 in
           (Ascii.eqb d "2"%char && (third =? 102)) ||
           (backslash && Ascii.eqb d "5"%char && (third =? 99))
       | _ => false
       end)
      || has_encoded_separator backslash rest
  end.

Definition getPathFromURLPosix (url : URLRecord) : Outcome string :=
  if negb (bool_decide (hostname url = EmptyString))
  then Throws ERR_INVALID_FILE_URL_HOST
  else
    let pathname := pathname url in
    if has_encoded_separator false pathname
    then Throws ERR_INVALID_FILE_URL_PATH
    else ES.decodeURIComponent pathname.

Section Win32.

(** [domainToUnicode] of [node:url]: the Unicode form of a host name. *)
Variable domainToUnicode : string -> string.

Definition getPathFromURLWin32 (url : URLRecord) : Outcome string :=
  let hostname := hostname url in
  let pathname := pathname url in
  if has_encoded_separator true pathname
  then Throws ERR_INVALID_FILE_URL_PATH
  else
    let pathname := replace_char "/"%char "\"%char pathname in
    pathname ← ES.decodeURIComponent pathname;
    if negb (bool_decide (hostname = EmptyString))
    then Returns ("\\" +:+ domainToUnicode hostname +:+ pathname)
    else
      match pathname with
      | String _ (String l (String sep _)) =>
          let letter := N.lor (code l) 32 in
          if (letter <? 97) || (122 <? letter) ||
             negb (Ascii.eqb sep ":"%char)
          then Throws ERR_INVALID_FILE_URL_PATH
          else
            Returns (String.substring 1 (String.length pathname - 1) pathname)
      | _ => Throws ERR_INVALID_FILE_URL_PATH
      end.

Definition fileURLToPath (platform : Platform) (url : URLRecord)
    : Outcome string :=
  if negb (bool_decide (protocol url = "file:"))
  then Throws ERR_INVALID_URL_SCHEME
  else
    match platform with
    | win32 => getPathFromURLWin32 url
    | posix => getPathFromURLPosix url
    end.

End Win32.

End NodeUrl.

(** ** JavaScript values and the two configuration modules *)

(** The values the modules build: strings, array literals and object
    literals, an object being its list of properties in source order. *)
#[warnings="-register-all"]
Inductive JSValue : Type :=
  | JSString (s : string)
  | JSArray (elems : list JSValue)
  | JSObject (props : list (string * JSValue)).

(** What an evaluation of a module can observe of its surroundings. *)
Record Env : Type := mkEnv {
  (** [import.meta.url], as the basic URL parser reads it when it is passed
      as the [base] of [new URL]: [None] for a string that is no URL. *)
  import_meta_url : option URLStd.URLRecord;
  (** [process.platform], which selects the path syntax of [fileURLToPath]. *)
  platform : Platform;
  (** [process.cwd()]. *)
  cwd : string;
  (** The files of the workspace, by path: the other packages' sources and
      configuration files. *)
  files : gmap string string
}.

Module Vite.

(** [defineConfig] returns the configuration object it is given. *)
Definition defineConfig (config : JSValue) : JSValue := config.

End Vite.

(** The module specifiers each file imports. *)
Definition lib_vite_config_imports : list string := ["vite"].
Definition app_vite_config_imports : list string := ["vite"; "node:url"].

(** The object literal of [packages/lib/vite.config.ts]. *)
Definition lib_config_literal : JSValue :=
  JSObject
    [("build", JSObject
       [("lib", JSObject
          [("entry", JSString "src/index.ts");
           ("fileName", JSString "lib");
           ("formats", JSArray [JSString "es"])])])].

(** [packages/lib/vite.config.ts]: the default export. *)
Definition lib_vite_config (env : Env) : Outcome JSValue :=
  Returns (Vite.defineConfig lib_config_literal).

(** The object literal of [packages/app/vite.config.ts], given the value of
    its one computed property. *)
Definition app_config_literal (lib_src : string) : JSValue :=
  JSObject
    [("resolve", JSObject
       [("alias", JSObject
          [("@test/lib", JSString lib_src)])])].

Section AppModule.

Variable domainToUnicode : string -> string.

(** [fileURLToPath(new URL('../lib/src', import.meta.url))]. *)
Definition app_lib_src (env : Env) : Outcome string :=
  url ← URLStd.URL_constructor "../lib/src" (import_meta_url env);
  NodeUrl.fileURLToPath domainToUnicode (platform env) url.

(** [packages/app/vite.config.ts]: the default export. *)
Definition app_vite_config (env : Env) : Outcome JSValue :=
  lib_src ← app_lib_src env;
  Returns (Vite.defineConfig (app_config_literal lib_src)).

End AppModule.

(** ** Objects in the heap

    Evaluating an object or array literal allocates a fresh object; a
    property holds a string or a reference.  This is the store in which
    the evaluations of the two modules leave their configuration records. *)

Inductive Value : Type :=
  | VString (s : string)
  | VRef (l : positive).

Inductive HeapObject : Type :=
  | HArray (elems : list Value)
  | HObject (props : list (string * Value)).

Abbreviation Heap := (gmap positive HeapObject).

Definition alloc (o : HeapObject) (σ : Heap) : positive * Heap :=
  let l := fresh (dom σ) in (l, <[l := o]> σ).

(** The elements of a literal, stored from left to right. *)
Fixpoint store_list {A B} (store : A -> Heap -> B * Heap) (xs : list A)
    (σ : Heap) : list B * Heap :=
  match xs with
  | [] => ([], σ)
  | x :: r =>
      let '(y, σ) := store x σ in
      let '(ys, σ) := store_list store r σ in
      (y :: ys, σ)
  end.

(** Evaluation of a literal: the parts first, in source order, then the
    object that holds them. *)
Fixpoint store_literal (v : JSValue) (σ : Heap) : Value * Heap :=
  match v with
  | JSString s => (VString s, σ)
  | JSArray elems =>
      let '(xs, σ) := store_list store_literal elems σ in
      let '(l, σ) := alloc (HArray xs) σ in
      (VRef l, σ)
  | JSObject props =>
      let '(xs, σ) :=
        store_list (fun kv σ => let '(x, σ) := store_literal kv.2 σ in
                                ((kv.1, x), σ)) props σ in
      let '(l, σ) := alloc (HObject xs) σ in
      (VRef l, σ)
  end.

(** The value a heap value stands for, read to a depth of [fuel] objects. *)
Fixpoint read_back (fuel : nat) (σ : Heap) (v : Value) : option JSValue :=
  match v with
  | VString s => Some (JSString s)
  | VRef l =>
      match fuel with
      | O => None
      | S fuel =>
          match σ !! l with
          | None => None
          | Some (HArray elems) =>
              JSArray <$> mapM (read_back fuel σ) elems
          | Some (HObject props) =>
              JSObject <$>
                mapM (fun kv => pair kv.1 <$> read_back fuel σ kv.2) props
          end
      end
  end.

(** The references an object holds, and reachability through them. *)
Definition value_refs (v : Value) : list positive :=
  match v with VString _ => [] | VRef l => [l] end.

Definition object_refs (o : HeapObject) : list positive :=
  match o with
  | HArray elems => elems ≫= value_refs
  | HObject props => props ≫= fun kv => value_refs kv.2
  end.

Inductive reaches (σ : Heap) : Value -> positive -> Prop :=
  | reaches_here l : reaches σ (VRef l) l
  | reaches_step l o l' l'' :
      σ !! l = Some o -> l' ∈ object_refs o ->
      reaches σ (VRef l') l'' -> reaches σ (VRef l) l''.

(** The operations of the repository: the evaluation of one of the two
    modules, which stores its default export in the heap. *)
Inductive ConfigModule : Type := LibViteConfig | AppViteConfig.

Section Evaluation.

Variable domainToUnicode : string -> string.

Definition default_export (m : ConfigModule) (env : Env) : Outcome JSValue :=
  match m with
  | LibViteConfig => lib_vite_config env
  | AppViteConfig => app_vite_config domainToUnicode env
  end.

Definition evaluate (m : ConfigModule) (env : Env) (σ : Heap)
    : Outcome (Value * Heap) :=
  config ← default_export m env;
  Returns (store_literal config σ).

(** A run of evaluations; one that throws leaves the heap as it was. *)
Fixpoint run (ops : list (ConfigModule * Env)) (σ : Heap) : Heap :=
  match ops with
  | [] => σ
  | (m, env) :: r =>
      match evaluate m env σ with
      | Returns (_, σ') => run r σ'
      | _ => run r σ
      end
  end.

End Evaluation.

(** ** Notions the properties are stated with *)

(** *** Paths *)

Definition is_separator (c : ascii) : bool :=
  Ascii.eqb c "/"%char || Ascii.eqb c "\"%char.

(** The separators of a platform's path syntax. *)
Definition path_separator (p : Platform) (c : ascii) : bool :=
  match p with
  | posix => Ascii.eqb c "/"%char
  | win32 => is_separator c
  end.

Definition no_separator (p : Platform) (s : string) : bool :=
  string_forallb (fun c => negb (path_separator p c)) s.

(** The components of a path string: what lies between separators. *)
Fixpoint split_path (sep : ascii -> bool) (s : string) : list string :=
  match s with
  | EmptyString => [EmptyString]
  | String c r =>
      if sep c then EmptyString :: split_path sep r
      else
        match split_path sep r with
        | x :: xs => String c x :: xs
        | [] => [String c EmptyString]
        end
  end.

(** Every segment preceded by the separator. *)
Fixpoint join_segments (sep : ascii) (segs : list string) : string :=
  match segs with
  | [] => EmptyString
  | seg :: r => String sep (seg +:+ join_segments sep r)
  end.

Definition string_tail (s : string) : string :=
  match s with EmptyString => EmptyString | String _ r => r end.

(** The path string a platform writes for a host and decoded segments. *)
Definition native_path (domainToUnicode : string -> string) (p : Platform)
    (hostname : string) (segs : list string) : string :=
  match p with
  | posix => join_segments "/" segs
  | win32 =>
      if bool_decide (hostname = EmptyString)
      then string_tail (join_segments "\" segs)
      else "\\" +:+ domainToUnicode hostname +:+ join_segments "\" segs
  end.

(** The components before the first segment of a path without host. *)
Definition root_components (p : Platform) : list string :=
  match p with posix => [EmptyString] | win32 => [] end.

(** A path that starts at a root: [/] on POSIX; on Windows a drive
    designator or the two backslashes of a UNC path. *)
Definition is_rooted (p : Platform) (s : string) : bool :=
  match p, s with
  | posix, String a _ => Ascii.eqb a "/"%char
  | win32, String a (String b _) =>
      (Ascii.eqb a "\"%char && Ascii.eqb b "\"%char) ||
      (is_ascii_alpha a && Ascii.eqb b ":"%char)
  | _, _ => false
  end.

(** [path.isAbsolute] of [node:path]: on POSIX a leading [/]; on Windows a
    leading separator, or a drive letter, [:] and a separator. *)
Definition is_absolute (p : Platform) (s : string) : bool :=
  match p, s with
  | posix, String a _ => Ascii.eqb a "/"%char
  | win32, String a r =>
      is_separator a ||
      match r with
      | String b (String c _) =>
          is_ascii_alpha a && Ascii.eqb b ":"%char && is_separator c
      | _ => false
      end
  | _, _ => false
  end.

(** *** URLs *)

(** What the basic URL parser guarantees of the record of a [file:] URL, as
    far as the properties below rely on it: a list of segments, none of
    which holds a separator or is a dot segment. *)
Definition is_url_path_segment (s : string) : bool :=
  string_forallb (fun c => negb (is_separator c)) s &&
  negb (URLStd.is_single_dot s) && negb (URLStd.is_double_dot s).

Definition is_file_url (u : URLStd.URLRecord) : bool :=
  bool_decide (URLStd.scheme u = "file") &&
  match URLStd.path u with
  | URLStd.OpaquePath _ => false
  | URLStd.Segments segs => forallb is_url_path_segment segs
  end.

(** The root the platform needs of a file URL: none on POSIX; on Windows a
    host, or a drive letter as first segment. *)
Definition has_native_root (p : Platform) (u : URLStd.URLRecord) : bool :=
  match p with
  | posix => true
  | win32 =>
      negb (bool_decide (URLStd.hostname u = EmptyString)) ||
      match URLStd.segments_of u with
      | d :: _ => URLStd.is_normalized_windows_drive_letter d
      | [] => false
      end
  end.

(** A file URL that names a path of the platform: [fileURLToPath] converts
    it, and it has the root the platform needs. *)
Definition names_native_path (domainToUnicode : string -> string)
    (p : Platform) (u : URLStd.URLRecord) : bool :=
  returned (NodeUrl.fileURLToPath domainToUnicode p u) &&
  has_native_root p u.

(** The segments [new URL('../lib/src', base)] keeps of the base's path. *)
Definition kept_segments (base : URLStd.URLRecord) : list string :=
  URLStd.shorten_segments (URLStd.scheme base)
    (URLStd.shorten_segments (URLStd.scheme base) (URLStd.segments_of base)).

(** The URL that [new URL('../lib/src', base)] builds. *)
Definition lib_src_url (base : URLStd.URLRecord) : URLStd.URLRecord :=
  if bool_decide (URLStd.scheme base = "file")
  then URLStd.mkURL "file" "" "" (URLStd.host base) None
         (URLStd.Segments (kept_segments base ++ ["lib"; "src"])) None None
  else URLStd.mkURL (URLStd.scheme base) (URLStd.username base)
         (URLStd.password base) (URLStd.host base) (URLStd.port base)
         (URLStd.Segments (kept_segments base ++ ["lib"; "src"])) None None.

(** A module path caught by the drive-letter rule of [shorten]: at most two
    segments, the first a drive letter. *)
Definition at_drive_root (segs : list string) : bool :=
  match segs with
  | [d] | [d; _] => URLStd.is_normalized_windows_drive_letter d
  | _ => false
  end.

(** The segments of [../lib/src] taken from a file at [segs]: without the
    file name and the directory that holds it. *)
Definition sibling_lib_src (segs : list string) : list string :=
  removelast (removelast segs) ++ ["lib"; "src"].

(** The segments that [new URL('../lib/src', u)] keeps of the path of a
    [file:] URL: all but the last two, except that a drive letter at the
    head of a path of at most two segments stays. *)
Definition directories_above (segs : list string) : list string :=
  if at_drive_root segs then take 1 segs
  else removelast (removelast segs).

(** A component of a normalized path: not empty, no dot segment, and
    without a separator of the platform. *)
Definition normalized_component (p : Platform) (d : string) : Prop :=
  d <> "" /\ d <> ".." /\ d <> "." /\ no_separator p d = true.

(** *** Decoding *)

(** The segments of a path, each decoded by [decodeURIComponent]. *)
Fixpoint decode_segments (segs : list string) : Outcome (list string) :=
  match segs with
  | [] => Returns []
  | seg :: r =>
      seg' ← ES.decodeURIComponent seg;
      r' ← decode_segments r;
      Returns (seg' :: r')
  end.

(** A segment as the platform's conversion reads it before decoding:
    [getPathFromURLWin32] first turns [/] into [\]. *)
Definition platform_segment (p : Platform) (seg : string) : string :=
  match p with
  | posix => seg
  | win32 => replace_char "/" "\" seg
  end.

(** Whether the platform's conversion also rejects an encoded backslash. *)
Definition rejects_backslash (p : Platform) : bool :=
  match p with posix => false | win32 => true end.

(** The check of [getPathFromURLWin32] on a decoded path without host. *)
Definition win32_local (pathname : string) : Outcome string :=
  match pathname with
  | String _ (String l (String sep _)) =>
      let letter := N.lor (code l) 32 in
      if (letter <? 97) || (122 <? letter) || negb (Ascii.eqb sep ":")
      then Throws ERR_INVALID_FILE_URL_PATH
      else Returns (String.substring 1 (String.length pathname - 1) pathname)
  | _ => Throws ERR_INVALID_FILE_URL_PATH
  end.

(** A string without [%]: [decodeURIComponent] leaves it as it is. *)
Definition is_unescaped (s : string) : bool :=
  string_forallb (fun c => negb (Ascii.eqb c "%")) s.

(** How the output of [decodeURIComponent] arises from its input: a plain
    character stays, an escape below 128 gives its character, and a run of
    escapes that holds a multi-octet sequence gives octets from 128 on. *)
Inductive decodes : string -> string -> Prop :=
  | decodes_nil : decodes "" ""
  | decodes_plain c s d :
      Ascii.eqb c "%" = false -> decodes s d ->
      decodes (String c s) (String c d)
  | decodes_escape h1 h2 B s d :
      ES.ParseHexOctet h1 h2 = Some B -> B < 128 -> decodes s d ->
      decodes (String "%" (String h1 (String h2 s)))
              (String (ascii_of_N B) d)
  | decodes_sequence esc b octets s d :
      Forall (fun b => 128 <= b < 256) (b :: octets) -> decodes s d ->
      decodes (esc +:+ s) (ES.string_of_octets (b :: octets) +:+ d).

(** *** Object values *)

(** Own keys and property lookup of an object value. *)
Definition own_keys (v : JSValue) : list string :=
  match v with JSObject props => props.*1 | _ => [] end.

Definition get_property (key : string) (v : JSValue) : option JSValue :=
  match v with
  | JSObject props => snd <$> find (fun kv => bool_decide (kv.1 = key)) props
  | _ => None
  end.

(** A module specifier that names a file by its path. *)
Definition is_path_specifier (s : string) : bool :=
  match s with
  | String "/" _ | String "." (String "/" _)
  | String "." (String "." (String "/" _)) => true
  | _ => false
  end.

(** *** Heaps *)

(** The nesting depth of a literal: the fuel [read_back] needs for it. *)
Fixpoint literal_depth (v : JSValue) : nat :=
  match v with
  | JSString _ => 0%nat
  | JSArray elems => S (foldr Nat.max 0%nat (literal_depth <$> elems))
  | JSObject props =>
      S (foldr Nat.max 0%nat ((fun kv => literal_depth kv.2) <$> props))
  end.

(** Objects of [σ'] that [σ] does not hold refer only to such objects. *)
Definition new_objects_closed (σ σ' : Heap) : Prop :=
  forall l o, σ' !! l = Some o -> l ∉ dom σ ->
    forall l', l' ∈ object_refs o -> l' ∈ dom σ' /\ l' ∉ dom σ.

(** What storing one part of a literal guarantees: the heap only grows, the
    part refers to new objects only, new objects refer to new objects, and
    the part reads back, in every larger heap, as what was stored. *)
Definition stored_well {A B : Type} (store : A -> Heap -> B * Heap)
    (refs_of : B -> list positive) (depth : A -> nat)
    (read : nat -> Heap -> B -> option A) (a : A) : Prop :=
  forall σ y σ', store a σ = (y, σ') ->
    σ ⊆ σ' /\
    (forall l, l ∈ refs_of y -> l ∈ dom σ' /\ l ∉ dom σ) /\
    new_objects_closed σ σ' /\
    (forall σ'' n, σ' ⊆ σ'' -> (depth a <= n)%nat -> read n σ'' y = Some a).

(** ** Module locations used in examples *)

(** The record of [file://hostname/seg1/.../segn]. *)
Definition file_url (hostname : string) (segs : list string)
    : URLStd.URLRecord :=
  URLStd.mkURL "file" "" "" (Some hostname) None (URLStd.Segments segs)
    None None.

Definition env_at (u : option URLStd.URLRecord) (p : Platform) : Env :=
  mkEnv u p "/" ∅.

(** [file:///ws/packages/app/vite.config.ts] *)
Definition workspace_url : URLStd.URLRecord :=
  file_url "" ["ws"; "packages"; "app"; "vite.config.ts"].


(** [file:///C:/ws/packages/app/vite.config.ts] *)
Definition drive_workspace_url : URLStd.URLRecord :=
  file_url "" ["C:"; "ws"; "packages"; "app"; "vite.config.ts"].

(** [file://example.com/ws/packages/app/vite.config.ts] *)
Definition remote_url : URLStd.URLRecord :=
  file_url "example.com" ["ws"; "packages"; "app"; "vite.config.ts"].

(** [file:///C:/vite.config.ts] *)
Definition drive_root_url : URLStd.URLRecord :=
  file_url "" ["C:"; "vite.config.ts"].

(** [file:///C:x/app/vite.config.ts] *)
Definition drive_relative_url : URLStd.URLRecord :=
  file_url "" ["C:x"; "app"; "vite.config.ts"].

(** [https://example.com/ws/packages/app/vite.config.ts] *)
Definition https_url : URLStd.URLRecord :=
  URLStd.mkURL "https" "" "" (Some "example.com") None
    (URLStd.Segments ["ws"; "packages"; "app"; "vite.config.ts"]) None None.

(** [data:text/javascript,export default 0] *)
Definition data_url : URLStd.URLRecord :=
  URLStd.mkURL "data" "" "" None None
    (URLStd.OpaquePath "text/javascript,export default 0") None None.

(** [file:///ws/packages/app//vite.config.ts] *)
Definition empty_segment_url : URLStd.URLRecord :=
  file_url "" ["ws"; "packages"; "app"; ""; "vite.config.ts"].

(** ** Notions of the further properties *)

(** The URL that [new URL('..', base)] builds: the directory above the one
    that holds the module. *)
Definition parent_directory_url (base : URLStd.URLRecord)
    : URLStd.URLRecord :=
  if bool_decide (URLStd.scheme base = "file")
  then URLStd.mkURL "file" "" "" (URLStd.host base) None
         (URLStd.Segments (kept_segments base ++ [""])) None None
  else URLStd.mkURL (URLStd.scheme base) (URLStd.username base)
         (URLStd.password base) (URLStd.host base) (URLStd.port base)
         (URLStd.Segments (kept_segments base ++ [""])) None None.

(** [lib/src] in the path syntax of the platform. *)
Definition lib_src_suffix (p : Platform) : string :=
  match p with posix => "lib/src" | win32 => "lib\src" end.

(** A URL with another query and fragment. *)
Definition with_query_and_fragment (u : URLStd.URLRecord)
    (q f : option string) : URLStd.URLRecord :=
  URLStd.mkURL (URLStd.scheme u) (URLStd.username u) (URLStd.password u)
    (URLStd.host u) (URLStd.port u) (URLStd.path u) q f.

(** A segment the platform's conversion accepts: no encoded separator, and
    escapes that decode. *)
Definition convertible_segment (p : Platform) (seg : string) : bool :=
  negb (NodeUrl.has_encoded_separator (rejects_backslash p) seg) &&
  returned (ES.decodeURIComponent (platform_segment p seg)).

(** A string that starts with a drive designator. *)
Definition starts_with_drive (s : string) : bool :=
  match s with
  | String l (String c _) => is_ascii_alpha l && Ascii.eqb c ":"
  | _ => false
  end.

(** The first kept segment decodes to a string with a drive designator. *)
Definition first_directory_has_drive (base : URLStd.URLRecord) : bool :=
  match kept_segments base with
  | d :: _ =>
      match ES.decodeURIComponent (platform_segment win32 d) with
      | Returns d' => starts_with_drive d'
      | _ => false
      end
  | [] => false
  end.

(** The module locations at which the application module evaluates. *)
Definition evaluates_at (p : Platform) (u : option URLStd.URLRecord) : bool :=
  match u with
  | None => false
  | Some base =>
      negb (URLStd.has_opaque_path base) &&
      bool_decide (URLStd.scheme base = "file") &&
      forallb (convertible_segment p) (kept_segments base) &&
      match p with
      | posix => bool_decide (URLStd.hostname base = "")
      | win32 =>
          negb (bool_decide (URLStd.hostname base = "")) ||
          first_directory_has_drive base
      end
  end.

(** What an error of the application module tells about the environment. *)
Definition error_cause (env : Env) (e : JSError) : Prop :=
  match e with
  | TypeError_InvalidURL =>
      import_meta_url env = None \/
      exists base,
        import_meta_url env = Some base /\
        URLStd.has_opaque_path base = true
  | ERR_INVALID_URL_SCHEME =>
      exists base,
        import_meta_url env = Some base /\ URLStd.scheme base <> "file"
  | ERR_INVALID_FILE_URL_HOST =>
      platform env = posix /\
      exists base,
        import_meta_url env = Some base /\ URLStd.hostname base <> ""
  | ERR_INVALID_FILE_URL_PATH =>
      exists base,
        import_meta_url env = Some base /\
        (existsb (NodeUrl.has_encoded_separator
                    (rejects_backslash (platform env)))
                 (kept_segments base) = true \/
         (platform env = win32 /\ URLStd.hostname base = "" /\
          first_directory_has_drive base = false))
  | URIError =>
      exists base seg,
        import_meta_url env = Some base /\
        seg ∈ kept_segments base /\
        ES.decodeURIComponent (platform_segment (platform env) seg)
          = Throws URIError
  end.


(** * Properties *)

(** ** Examples *)

(** [new URL('../lib/src', 'file:///ws/packages/app/vite.config.ts')] is
    [file:///ws/packages/lib/src]. *)
Example new_URL_lib_src :
  URLStd.URL_constructor "../lib/src" (Some workspace_url)
    = Returns (file_url "" ["ws"; "packages"; "lib"; "src"]).
Proof. reflexivity. Qed.

(** [new URL('./a/../b/.', 'file:///x/vite.config.ts')] is
    [file:///x/b/]. *)
Example new_URL_dot_segments :
  URLStd.URL_constructor "./a/../b/."
    (Some (file_url "" ["x"; "vite.config.ts"]))
    = Returns (file_url "" ["x"; "b"; ""]).
Proof. reflexivity. Qed.

(** [new URL('..', 'file:///C:/')] is [file:///C:/]: the drive letter
    stays. *)
Example new_URL_keeps_drive_letter :
  URLStd.URL_constructor ".." (Some (file_url "" ["C:"; ""]))
    = Returns (file_url "" ["C:"; ""]).
Proof. reflexivity. Qed.

(** Against [https://example.com/ws/packages/app/vite.config.ts] the
    reference resolves as well, and keeps scheme and host. *)
Example new_URL_https :
  URLStd.URL_constructor "../lib/src" (Some https_url)
    = Returns (URLStd.mkURL "https" "" "" (Some "example.com") None
                 (URLStd.Segments ["ws"; "packages"; "lib"; "src"])
                 None None).
Proof. reflexivity. Qed.

Example new_URL_opaque_base :
  URLStd.URL_constructor "../lib/src" (Some data_url)
    = Throws TypeError_InvalidURL.
Proof. reflexivity. Qed.

Example decodeURIComponent_utf8 :
  ES.decodeURIComponent "/%E4%BD%A0%E5%A5%BD.txt" = Returns "/你好.txt".
Proof. reflexivity. Qed.

Example decodeURIComponent_four_octets :
  ES.decodeURIComponent "%f0%9f%98%80" = Returns "😀".
Proof. reflexivity. Qed.

Example decodeURIComponent_malformed :
  ES.decodeURIComponent "%" = Throws URIError /\
  ES.decodeURIComponent "%zz" = Throws URIError /\
  ES.decodeURIComponent "%E4%BD" = Throws URIError /\
  ES.decodeURIComponent "%C0%80" = Throws URIError /\
  ES.decodeURIComponent "%ED%A0%80" = Throws URIError /\
  ES.decodeURIComponent "%F4%90%80%80" = Throws URIError.
Proof. by repeat split. Qed.

(** The examples of the documentation of [fileURLToPath]. *)
Example fileURLToPath_drive :
  NodeUrl.fileURLToPath id win32 (file_url "" ["C:"; "path"; ""])
    = Returns "C:\path\".
Proof. reflexivity. Qed.

Example fileURLToPath_unc :
  NodeUrl.fileURLToPath id win32 (file_url "nas" ["foo.txt"])
    = Returns "\\nas\foo.txt".
Proof. reflexivity. Qed.

Example fileURLToPath_utf8 :
  NodeUrl.fileURLToPath id posix (file_url "" ["%E4%BD%A0%E5%A5%BD.txt"])
    = Returns "/你好.txt".
Proof. reflexivity. Qed.

Example fileURLToPath_space :
  NodeUrl.fileURLToPath id posix (file_url "" ["hello%20world"])
    = Returns "/hello world".
Proof. reflexivity. Qed.

Example fileURLToPath_rejects :
  NodeUrl.fileURLToPath id posix (file_url "" ["a%2Fb"])
    = Throws ERR_INVALID_FILE_URL_PATH /\
  NodeUrl.fileURLToPath id posix (file_url "nas" ["foo.txt"])
    = Throws ERR_INVALID_FILE_URL_HOST /\
  NodeUrl.fileURLToPath id win32 (file_url "" ["a%5Cb"])
    = Throws ERR_INVALID_FILE_URL_PATH /\
  NodeUrl.fileURLToPath id win32 (file_url "" ["ws"; "foo.txt"])
    = Throws ERR_INVALID_FILE_URL_PATH /\
  NodeUrl.fileURLToPath id posix https_url = Throws ERR_INVALID_URL_SCHEME.
Proof. by repeat split. Qed.

(** The two modules at [file:///ws/packages/app/vite.config.ts] and beside
    it. *)
Example app_vite_config_in_workspace :
  app_vite_config id (env_at (Some workspace_url) posix)
    = Returns (JSObject [("resolve", JSObject [("alias", JSObject
        [("@test/lib", JSString "/ws/packages/lib/src")])])]).
Proof. reflexivity. Qed.

Example evaluate_both_modules :
  let '(lib, σ1) := store_literal lib_config_literal ∅ in
  let '(app, σ2) :=
    store_literal (app_config_literal "/ws/packages/lib/src") σ1 in
  evaluate id LibViteConfig (env_at None posix) ∅ = Returns (lib, σ1) /\
  evaluate id AppViteConfig (env_at (Some workspace_url) posix) σ1
    = Returns (app, σ2) /\
  read_back 4 σ2 lib = Some lib_config_literal /\
  read_back 4 σ2 app = Some (app_config_literal "/ws/packages/lib/src") /\
  dom σ1 = {[1; 2; 3; 4]}%positive /\
  dom σ2 ∖ dom σ1 = {[5; 6; 7]}%positive.
Proof. by vm_compute. Qed.

(** ** Strings and outcomes *)

Lemma append_cons (c : ascii) (a b : string) :
  String c a +:+ b = String c (a +:+ b).
Proof. reflexivity. Qed.

Lemma append_nil_l (s : string) : "" +:+ s = s.
Proof. reflexivity. Qed.

Lemma append_nil_r (s : string) : s +:+ "" = s.
Proof. induction s as [|c s IH]; [done|]. by rewrite append_cons, IH. Qed.

Lemma append_assoc (a b c : string) : (a +:+ b) +:+ c = a +:+ (b +:+ c).
Proof. induction a as [|x a IH]; [done|]. by rewrite !append_cons, IH. Qed.

Lemma Outcome_fmap_bind {A B C} (f : A -> B) (m : Outcome A)
    (k : B -> Outcome C) :
  ((f <$> m) ≫= k) = (m ≫= fun a => k (f a)).
Proof. by destruct m. Qed.

Lemma Outcome_bind_fmap {A B C} (f : B -> C) (m : Outcome A)
    (k : A -> Outcome B) :
  (f <$> (m ≫= k)) = (m ≫= fun a => f <$> k a).
Proof. by destruct m. Qed.

Lemma Outcome_fmap_returns {A B} (f : A -> B) (m : Outcome A) (b : B) :
  f <$> m = Returns b -> exists a, m = Returns a /\ b = f a.
Proof. destruct m; simpl; intros H; inversion H; eauto. Qed.

Lemma Outcome_bind_returns {A B} (m : Outcome A) (k : A -> Outcome B) (b : B) :
  m ≫= k = Returns b -> exists a, m = Returns a /\ k a = Returns b.
Proof. destruct m; simpl; intros H; inversion H; eauto. Qed.

(** ** [decodeURIComponent] and path separators *)

Lemma separator_cases c :
  is_separator c = true -> c = "/"%char \/ c = "\"%char.
Proof.
  unfold is_separator. intros H.
  apply orb_true_iff in H as [H|H]; apply Ascii.eqb_eq in H; auto.
Qed.

Lemma separator_not_hex c : is_separator c = true -> ES.hex_digit c = None.
Proof. intros [->| ->]%separator_cases; reflexivity. Qed.

Lemma separator_not_percent c :
  is_separator c = true -> Ascii.eqb c "%"%char = false.
Proof. intros [->| ->]%separator_cases; reflexivity. Qed.

Lemma ParseHexOctet_sep_l c h :
  is_separator c = true -> ES.ParseHexOctet c h = None.
Proof.
  intros H. unfold ES.ParseHexOctet. by rewrite (separator_not_hex c H).
Qed.

Lemma ParseHexOctet_sep_r c h :
  is_separator c = true -> ES.ParseHexOctet h c = None.
Proof.
  intros H. unfold ES.ParseHexOctet. rewrite (separator_not_hex c H).
  by destruct (ES.hex_digit h).
Qed.

Lemma Decode_separator c s :
  is_separator c = true ->
  ES.Decode None (String c s) = String c <$> ES.Decode None s.
Proof. intros H. simpl. by rewrite (separator_not_percent c H). Qed.

(** Decoding stops cleanly at a separator: no escape straddles it. *)
Lemma Decode_app_separator_bounded n : forall a pending c b,
  (String.length a <= n)%nat ->
  is_separator c = true ->
  ES.Decode pending (a +:+ String c b) =
    (a' ← ES.Decode pending a;
     b' ← ES.Decode None b;
     Returns (a' +:+ String c b')).
Proof.
  induction n as [|n IH]; intros a pending c b Hlen Hc.
  - destruct a; [|simpl in Hlen; lia].
    destruct pending as [[j Octets]|]; rewrite ?append_cons, ?append_nil_l.
    + simpl. destruct b as [|h1 [|h2 r]]; try done.
      by rewrite (separator_not_percent c Hc).
    + rewrite (Decode_separator c b Hc). by destruct (ES.Decode None b).
  - destruct pending as [[j Octets]|].
    + destruct a as [|C [|h1 [|h2 r]]]; rewrite ?append_cons, ?append_nil_l.
      * simpl. destruct b as [|x [|y r]]; try done.
        by rewrite (separator_not_percent c Hc).
      * simpl. destruct b as [|x r]; try done.
        rewrite (ParseHexOctet_sep_l c x Hc). by destruct (Ascii.eqb C "%").
      * simpl. rewrite (ParseHexOctet_sep_r c h1 Hc).
        by destruct (Ascii.eqb C "%").
      * assert (Hr : (String.length r <= n)%nat) by (simpl in Hlen; lia).
        cbn [ES.Decode].
        destruct (Ascii.eqb C "%"); [|done].
        destruct (ES.ParseHexOctet h1 h2) as [cb|]; [|done].
        destruct j as [|[|j]].
        -- destruct (ES.utf8_code_point (Octets ++ [cb])); [|done].
           rewrite (IH r None c b Hr Hc), Outcome_fmap_bind.
           destruct (ES.Decode None r); [|done..].
           destruct (ES.Decode None b); [|done..].
           simpl. by rewrite append_assoc.
        -- destruct (ES.utf8_code_point (Octets ++ [cb])); [|done].
           rewrite (IH r None c b Hr Hc), Outcome_fmap_bind.
           destruct (ES.Decode None r); [|done..].
           destruct (ES.Decode None b); [|done..].
           simpl. by rewrite append_assoc.
        -- by apply IH.
    + destruct a as [|C r]; rewrite ?append_cons, ?append_nil_l.
      * rewrite (Decode_separator c b Hc). by destruct (ES.Decode None b).
      * cbn [ES.Decode]. destruct (Ascii.eqb C "%").
        -- destruct r as [|h1 [|h2 r]]; rewrite ?append_cons, ?append_nil_l.
           ++ destruct b as [|x r]; try done.
              by rewrite (ParseHexOctet_sep_l c x Hc).
           ++ by rewrite (ParseHexOctet_sep_r c h1 Hc).
           ++ assert (Hr : (String.length r <= n)%nat) by (simpl in Hlen; lia).
              destruct (ES.ParseHexOctet h1 h2) as [B|]; [|done].
              destruct (ES.leading_ones B) as [|[|k]]; [|done|].
              ** rewrite (IH r None c b Hr Hc), Outcome_fmap_bind.
                 destruct (ES.Decode None r); [|done..].
                 by destruct (ES.Decode None b).
              ** destruct (k <? 3)%nat; [|done]. by apply IH.
        -- assert (Hr : (String.length r <= n)%nat) by (simpl in Hlen; lia).
           rewrite (IH r None c b Hr Hc), Outcome_fmap_bind.
           destruct (ES.Decode None r); [|done..].
           by destruct (ES.Decode None b).
Qed.

Lemma Decode_app_separator a c b :
  is_separator c = true ->
  ES.Decode None (a +:+ String c b) =
    (a' ← ES.Decode None a;
     b' ← ES.Decode None b;
     Returns (a' +:+ String c b')).
Proof.
  intros Hc.
  by apply (Decode_app_separator_bounded (String.length a)).
Qed.

(** ** The parser on [../lib/src] *)

Section Parser.
Import URLStd.

Lemma path_state_lib_src url :
  has_opaque_path url = false ->
  path_state "../lib/src" "" url =
    set_segments url
      (shorten_segments (scheme url) (segments_of url) ++ ["lib"; "src"]).
Proof.
  intros H. destruct url as [sch us pw h po [o|segs] q f]; [done|].
  change (path_state "../lib/src" "" ?u) with
    (path_state_segment false "src"
       (path_state_segment true "lib" (path_state_segment true ".." u))).
  change (path_state_segment true ".." ?u) with (shorten u).
  change (path_state_segment true "lib" ?u)
    with (set_segments u (segments_of u ++ ["lib"])).
  change (path_state_segment false "src" ?u)
    with (set_segments u (segments_of u ++ ["src"])).
  unfold shorten, set_segments, segments_of; simpl.
  by rewrite <- app_assoc.
Qed.

Lemma file_state_lib_src base :
  has_opaque_path base = false ->
  file_state "../lib/src" base =
    mkURL "file" "" "" (host base) None
      (Segments
         (shorten_segments "file"
            (shorten_segments "file" (segments_of base)) ++ ["lib"; "src"]))
      None None.
Proof.
  intros H. unfold file_state.
  change (starts_with_windows_drive_letter "../lib/src") with false. cbv iota.
  rewrite path_state_lib_src.
  - destruct base as [sch us pw h po [o|segs] q f]; [done|]. reflexivity.
  - destruct base as [sch us pw h po [o|segs] q f]; [done|]. reflexivity.
Qed.

Lemma relative_state_lib_src base :
  has_opaque_path base = false ->
  relative_state "../lib/src" base =
    mkURL (scheme base) (username base) (password base) (host base) (port base)
      (Segments
         (shorten_segments (scheme base)
            (shorten_segments (scheme base) (segments_of base))
          ++ ["lib"; "src"]))
      None None.
Proof.
  intros H. unfold relative_state. cbv iota.
  rewrite path_state_lib_src.
  - destruct base as [sch us pw h po [o|segs] q f]; [done|]. reflexivity.
  - destruct base as [sch us pw h po [o|segs] q f]; [done|]. reflexivity.
Qed.
End Parser.

(** ** Segments, joined and decoded *)

Lemma serialize_segments_join segs :
  URLStd.serialize_segments segs = join_segments "/" segs.
Proof. induction segs as [|s r IH]; simpl; [done|]. by rewrite IH. Qed.

Lemma join_segments_app sep xs ys :
  join_segments sep (xs ++ ys) = join_segments sep xs +:+ join_segments sep ys.
Proof.
  induction xs as [|x xs IH]; simpl; [done|].
  by rewrite IH, append_cons, append_assoc.
Qed.

Lemma replace_char_app a b s t :
  replace_char a b (s +:+ t) = replace_char a b s +:+ replace_char a b t.
Proof.
  induction s as [|c s IH]; [done|].
  rewrite append_cons. simpl. by rewrite IH, append_cons.
Qed.

Lemma replace_join segs :
  replace_char "/" "\" (join_segments "/" segs) =
  join_segments "\" (replace_char "/" "\" <$> segs).
Proof.
  induction segs as [|s r IH]; [done|].
  cbn [join_segments replace_char fmap list_fmap].
  by rewrite replace_char_app, IH.
Qed.

Lemma replace_char_id a b s :
  string_forallb (fun c => negb (Ascii.eqb c a)) s = true ->
  replace_char a b s = s.
Proof.
  induction s as [|c s IH]; simpl; [done|].
  intros [Hc Hs]%andb_true_iff. rewrite (IH Hs).
  by destruct (Ascii.eqb c a).
Qed.

Lemma decode_segments_app xs ys :
  decode_segments (xs ++ ys) =
    (xs' ← decode_segments xs; ys' ← decode_segments ys; Returns (xs' ++ ys')).
Proof.
  induction xs as [|x xs IH]; simpl.
  - by destruct (decode_segments ys).
  - destruct (ES.decodeURIComponent x); [|done..]. simpl.
    rewrite IH. destruct (decode_segments xs); [|done..]. simpl.
    by destruct (decode_segments ys).
Qed.

Lemma Decode_app_join sep s segs :
  is_separator sep = true ->
  ES.Decode None (s +:+ join_segments sep segs) =
    (s' ← ES.Decode None s;
     r' ← ES.Decode None (join_segments sep segs);
     Returns (s' +:+ r')).
Proof.
  intros Hsep. destruct segs as [|x r]; cbn [join_segments].
  - rewrite append_nil_r. destruct (ES.Decode None s); [|done..].
    simpl. by rewrite append_nil_r.
  - rewrite (Decode_app_separator s sep _ Hsep), (Decode_separator sep _ Hsep).
    destruct (ES.Decode None s); [|done..]. simpl.
    by destruct (ES.Decode None (x +:+ join_segments sep r)).
Qed.

Lemma Decode_join sep segs :
  is_separator sep = true ->
  ES.Decode None (join_segments sep segs) =
    join_segments sep <$> decode_segments segs.
Proof.
  intros Hsep. induction segs as [|s r IH]; [done|].
  cbn [join_segments decode_segments].
  rewrite (Decode_separator sep _ Hsep), (Decode_app_join sep s r Hsep), IH.
  unfold ES.decodeURIComponent.
  destruct (ES.Decode None s); [|done..]. simpl.
  by destruct (decode_segments r).
Qed.

(** ** Encoded separators *)

Lemma has_encoded_separator_sep bs c s :
  is_separator c = true ->
  NodeUrl.has_encoded_separator bs (String c s) =
  NodeUrl.has_encoded_separator bs s.
Proof. intros H. simpl. by rewrite (separator_not_percent c H). Qed.

Lemma has_encoded_separator_app bs a c b :
  is_separator c = true ->
  NodeUrl.has_encoded_separator bs (a +:+ String c b) =
  NodeUrl.has_encoded_separator bs a || NodeUrl.has_encoded_separator bs b.
Proof.
  intros Hc. induction a as [|x a IH].
  - rewrite append_nil_l. by apply has_encoded_separator_sep.
  - rewrite append_cons. cbn [NodeUrl.has_encoded_separator]. rewrite IH.
    destruct a as [|d [|t a]]; rewrite ?append_cons, ?append_nil_l.
    + apply separator_cases in Hc as [-> | ->]; simpl;
        (destruct (Ascii.eqb x "%"); [|done]);
        (destruct b; [done|]); by rewrite ?andb_false_r.
    + apply separator_cases in Hc as [-> | ->]; simpl;
        by destruct (Ascii.eqb x "%"), bs, (Ascii.eqb d "2"), (Ascii.eqb d "5").
    + by rewrite orb_assoc.
Qed.

Lemma has_encoded_separator_join bs sep segs :
  is_separator sep = true ->
  NodeUrl.has_encoded_separator bs (join_segments sep segs) =
  existsb (NodeUrl.has_encoded_separator bs) segs.
Proof.
  intros Hsep. induction segs as [|s r IH]; [done|].
  cbn [join_segments existsb].
  rewrite (has_encoded_separator_sep bs sep _ Hsep). rewrite <- IH.
  destruct r as [|s' r]; cbn [join_segments].
  - rewrite append_nil_r. by rewrite orb_false_r.
  - rewrite (has_encoded_separator_app bs s sep _ Hsep).
    by rewrite (has_encoded_separator_sep bs sep _ Hsep).
Qed.

(** ** What [shorten] keeps *)

Lemma removelast_prefix {A} (l : list A) : exists r, l = removelast l ++ r.
Proof.
  induction l as [|x l [r IH]]; [by exists []|].
  destruct l as [|y l]; [by exists [x]|].
  exists r. cbn [removelast] in *. rewrite <- app_comm_cons. by rewrite <- IH.
Qed.

Lemma shorten_segments_prefix sch segs :
  exists r, segs = URLStd.shorten_segments sch segs ++ r.
Proof.
  unfold URLStd.shorten_segments.
  destruct segs as [|d [|e segs]].
  - by exists [].
  - destruct (_ && _); [by exists [] | by exists [d]].
  - apply removelast_prefix.
Qed.

Lemma kept_prefix sch segs :
  exists r,
    segs = URLStd.shorten_segments sch (URLStd.shorten_segments sch segs) ++ r.
Proof.
  destruct (shorten_segments_prefix sch segs) as [r1 H1].
  destruct (shorten_segments_prefix sch (URLStd.shorten_segments sch segs))
    as [r2 H2].
  exists (r2 ++ r1). rewrite app_assoc. by rewrite <- H2.
Qed.

Lemma shorten_segments_not_at_drive_root sch segs :
  at_drive_root segs = false ->
  URLStd.shorten_segments sch (URLStd.shorten_segments sch segs) =
  removelast (removelast segs).
Proof.
  unfold at_drive_root, URLStd.shorten_segments.
  destruct segs as [|d [|e [|f segs]]]; intros H; try done.
  all: cbn [removelast]; by rewrite ?H, ?andb_false_r.
Qed.

Lemma shorten_segments_keeps_drive d segs :
  URLStd.is_normalized_windows_drive_letter d = true ->
  exists r,
    URLStd.shorten_segments "file"
      (URLStd.shorten_segments "file" (d :: segs)) = d :: r.
Proof.
  intros Hd.
  assert (H1 : forall l, exists r,
             URLStd.shorten_segments "file" (d :: l) = d :: r).
  { intros [|e l]; unfold URLStd.shorten_segments.
    - rewrite Hd. by exists [].
    - exists (removelast (e :: l)). done. }
  destruct (H1 segs) as [r ->]. apply H1.
Qed.

(** ** Normal forms of [fileURLToPath] and of the application's string *)

Lemma append_snoc_inj (s t : string) (c : ascii) :
  s +:+ String c "" = t +:+ String c "" -> s = t.
Proof.
  revert t. induction s as [|x s IH]; intros [|y t];
    rewrite ?append_cons, ?append_nil_l.
  - done.
  - intros H. inversion H as [[H1 H2]]. by destruct t.
  - intros H. inversion H as [[H1 H2]]. by destruct s.
  - intros H. inversion H as [[H1 H2]]. f_equal. by apply IH.
Qed.

Lemma protocol_file u :
  bool_decide (URLStd.protocol u = "file:") =
  bool_decide (URLStd.scheme u = "file").
Proof.
  apply bool_decide_ext. unfold URLStd.protocol. split.
  - intros H. by apply (append_snoc_inj _ "file" ":").
  - by intros ->.
Qed.

Section NormalForms.

Variable domainToUnicode : string -> string.

Lemma fileURLToPath_posix u segs :
  URLStd.scheme u = "file" -> URLStd.path u = URLStd.Segments segs ->
  NodeUrl.fileURLToPath domainToUnicode posix u =
    if negb (bool_decide (URLStd.hostname u = ""))
    then Throws ERR_INVALID_FILE_URL_HOST
    else if existsb (NodeUrl.has_encoded_separator false) segs
    then Throws ERR_INVALID_FILE_URL_PATH
    else join_segments "/" <$> decode_segments segs.
Proof.
  intros Hs Hp. unfold NodeUrl.fileURLToPath, NodeUrl.getPathFromURLPosix.
  rewrite protocol_file, Hs. cbn [bool_decide decide_rel negb].
  rewrite bool_decide_eq_true_2 by done. cbn [negb].
  unfold URLStd.pathname. rewrite Hp, serialize_segments_join.
  rewrite has_encoded_separator_join by done.
  unfold ES.decodeURIComponent. by rewrite Decode_join.
Qed.

Lemma fileURLToPath_win32 u segs :
  URLStd.scheme u = "file" -> URLStd.path u = URLStd.Segments segs ->
  NodeUrl.fileURLToPath domainToUnicode win32 u =
    if existsb (NodeUrl.has_encoded_separator true) segs
    then Throws ERR_INVALID_FILE_URL_PATH
    else
      dsegs ← decode_segments (replace_char "/" "\" <$> segs);
      if negb (bool_decide (URLStd.hostname u = ""))
      then Returns ("\\" +:+ domainToUnicode (URLStd.hostname u)
                    +:+ join_segments "\" dsegs)
      else win32_local (join_segments "\" dsegs).
Proof.
  intros Hs Hp. unfold NodeUrl.fileURLToPath, NodeUrl.getPathFromURLWin32.
  rewrite protocol_file, Hs.
  rewrite bool_decide_eq_true_2 by done. cbn [negb].
  unfold URLStd.pathname. rewrite Hp, serialize_segments_join.
  rewrite has_encoded_separator_join by done.
  destruct (existsb _ segs); [done|].
  unfold ES.decodeURIComponent. rewrite replace_join, Decode_join by done.
  by destruct (decode_segments _).
Qed.

Lemma fileURLToPath_not_file p u :
  URLStd.scheme u <> "file" ->
  NodeUrl.fileURLToPath domainToUnicode p u = Throws ERR_INVALID_URL_SCHEME.
Proof.
  intros Hs. unfold NodeUrl.fileURLToPath.
  rewrite protocol_file. by rewrite bool_decide_eq_false_2.
Qed.

Lemma URL_constructor_lib_src base :
  URLStd.URL_constructor "../lib/src" (Some base) =
    if URLStd.has_opaque_path base then Throws TypeError_InvalidURL
    else Returns (lib_src_url base).
Proof.
  unfold URLStd.URL_constructor, URLStd.basic_URL_parser.
  change (URLStd.is_plain_reference "../lib/src") with true. cbv iota.
  unfold URLStd.no_scheme_state, lib_src_url, kept_segments.
  destruct (URLStd.has_opaque_path base) eqn:Ho; [done|].
  case_bool_decide as Hs.
  - rewrite file_state_lib_src by done. by rewrite Hs.
  - by rewrite relative_state_lib_src.
Qed.

Lemma app_lib_src_unfold env :
  app_lib_src domainToUnicode env =
    match import_meta_url env with
    | None => Throws TypeError_InvalidURL
    | Some base =>
        if URLStd.has_opaque_path base then Throws TypeError_InvalidURL
        else NodeUrl.fileURLToPath domainToUnicode (platform env)
               (lib_src_url base)
    end.
Proof.
  unfold app_lib_src. destruct (import_meta_url env) as [base|]; [|done].
  rewrite URL_constructor_lib_src. by destruct (URLStd.has_opaque_path base).
Qed.

Lemma app_vite_config_unfold env :
  app_vite_config domainToUnicode env =
    app_config_literal <$> app_lib_src domainToUnicode env.
Proof. unfold app_vite_config. by destruct (app_lib_src _ env). Qed.

End NormalForms.

(** ** Drive letters *)

Lemma drive_letter_inv d :
  URLStd.is_normalized_windows_drive_letter d = true ->
  exists a, d = String a (String ":" "") /\ is_ascii_alpha a = true.
Proof.
  destruct d as [|a [|b [|c d]]]; try done. simpl.
  intros [Ha Hb%Ascii.eqb_eq]%andb_true_iff. subst. eauto.
Qed.

Lemma alpha_is_letter a :
  is_ascii_alpha a = true ->
  (N.lor (code a) 32 <? 97) || (122 <? N.lor (code a) 32) = false.
Proof. destruct a as [[] [] [] [] [] [] [] []]; by vm_compute. Qed.

Lemma alpha_not_special a :
  is_ascii_alpha a = true ->
  Ascii.eqb a "%" = false /\ Ascii.eqb a "/" = false /\ Ascii.eqb a "\" = false.
Proof. destruct a as [[] [] [] [] [] [] [] []]; by vm_compute. Qed.

Lemma drive_letter_decodes d :
  URLStd.is_normalized_windows_drive_letter d = true ->
  ES.decodeURIComponent (replace_char "/" "\" d) = Returns d.
Proof.
  intros (a & -> & Ha)%drive_letter_inv.
  destruct (alpha_not_special a Ha) as (H1 & H2 & H3).
  unfold ES.decodeURIComponent. simpl. by rewrite H2, H1.
Qed.

Lemma string_tail_substring c s :
  String.substring 1 (String.length (String c s) - 1) (String c s) = s.
Proof.
  simpl. rewrite Nat.sub_0_r.
  induction s as [|x s IH]; simpl; [done|]. by rewrite IH.
Qed.

Lemma win32_local_drive d r :
  URLStd.is_normalized_windows_drive_letter d = true ->
  win32_local (join_segments "\" (d :: r)) =
  Returns (string_tail (join_segments "\" (d :: r))).
Proof.
  intros (a & -> & Ha)%drive_letter_inv.
  cbn [join_segments]. rewrite !append_cons, append_nil_l.
  unfold win32_local. cbv zeta. rewrite (alpha_is_letter a Ha).
  cbn [orb negb Ascii.eqb]. rewrite string_tail_substring.
  change (negb (":" =? ":")%char) with false. by cbv iota.
Qed.

(** ** Decoding a prefix of the segments *)

Lemma decode_segments_prefix xs ys :
  returned (decode_segments (xs ++ ys)) = true ->
  exists xs', decode_segments xs = Returns xs'.
Proof.
  rewrite decode_segments_app. destruct (decode_segments xs); [eauto|done..].
Qed.

Lemma existsb_prefix {A} (f : A -> bool) xs ys :
  existsb f (xs ++ ys) = false -> existsb f xs = false.
Proof. rewrite existsb_app. by intros [? ?]%orb_false_iff. Qed.

Lemma is_file_url_inv u :
  is_file_url u = true ->
  URLStd.scheme u = "file" /\
  exists segs, URLStd.path u = URLStd.Segments segs /\
    forallb is_url_path_segment segs = true.
Proof.
  unfold is_file_url. intros [Hs Hp]%andb_true_iff.
  apply bool_decide_eq_true in Hs. split; [done|].
  destruct (URLStd.path u) as [|segs]; [done|]. eauto.
Qed.

Lemma lib_src_url_file base segs :
  URLStd.scheme base = "file" ->
  URLStd.path base = URLStd.Segments segs ->
  let kept := URLStd.shorten_segments "file"
                (URLStd.shorten_segments "file" segs) in
  URLStd.scheme (lib_src_url base) = "file" /\
  URLStd.path (lib_src_url base) = URLStd.Segments (kept ++ ["lib"; "src"]) /\
  URLStd.hostname (lib_src_url base) = URLStd.hostname base.
Proof.
  intros Hs Hp.
  unfold lib_src_url, kept_segments, URLStd.segments_of, URLStd.hostname.
  rewrite Hs, Hp. by rewrite bool_decide_eq_true_2.
Qed.

(** ** The shape of the application's string *)

Lemma letter_is_alpha l :
  (N.lor (code l) 32 <? 97) || (122 <? N.lor (code l) 32) = false ->
  is_ascii_alpha l = true.
Proof. destruct l as [[] [] [] [] [] [] [] []]; by vm_compute. Qed.

Lemma win32_local_inv s p :
  win32_local s = Returns p ->
  p = string_tail s /\ is_rooted win32 p = true.
Proof.
  unfold win32_local. destruct s as [|x [|l [|sep r]]]; try done. cbv zeta.
  destruct (_ || _ || _) eqn:Hc; [done|].
  apply orb_false_iff in Hc as [Hl Hsep].
  apply negb_false_iff in Hsep.
  rewrite string_tail_substring. intros [= <-]. split; [done|].
  cbn [is_rooted string_tail]. rewrite (letter_is_alpha l Hl), Hsep.
  by rewrite orb_true_r.
Qed.

Lemma join_segments_rooted sep segs :
  segs <> [] -> exists r, join_segments sep segs = String sep r.
Proof. destruct segs; [done|]. intros _. cbn [join_segments]. eauto. Qed.

Section Shape.

Variable domainToUnicode : string -> string.

Lemma app_lib_src_shape env p :
  app_lib_src domainToUnicode env = Returns p ->
  exists base dirs,
    import_meta_url env = Some base /\
    URLStd.scheme base = "file" /\
    URLStd.has_opaque_path base = false /\
    decode_segments (platform_segment (platform env) <$> kept_segments base)
      = Returns dirs /\
    existsb (NodeUrl.has_encoded_separator
               match platform env with posix => false | win32 => true end)
            (kept_segments base) = false /\
    p = native_path domainToUnicode (platform env) (URLStd.hostname base)
          (dirs ++ ["lib"; "src"]) /\
    is_rooted (platform env) p = true.
Proof.
  rewrite app_lib_src_unfold.
  destruct (import_meta_url env) as [base|] eqn:Hb; [|done].
  destruct (URLStd.has_opaque_path base) eqn:Ho; [done|].
  destruct (decide (URLStd.scheme base = "file")) as [Hs|Hs];
    [|by rewrite fileURLToPath_not_file
        by (unfold lib_src_url; by rewrite bool_decide_eq_false_2)].
  assert (Hp : exists segs, URLStd.path base = URLStd.Segments segs).
  { unfold URLStd.has_opaque_path in Ho.
    destruct (URLStd.path base); [done|eauto]. }
  destruct Hp as [segs Hp].
  destruct (lib_src_url_file base segs Hs Hp) as (Hs' & Hp' & Hh').
  assert (Hk : kept_segments base =
               URLStd.shorten_segments "file"
                 (URLStd.shorten_segments "file" segs)).
  { unfold kept_segments, URLStd.segments_of. by rewrite Hs, Hp. }
  rewrite <- Hk in Hp'.
  intros H. exists base.
  destruct (platform env) eqn:Hplat.
  - rewrite (fileURLToPath_posix _ _ _ Hs' Hp'), Hh' in H.
    case_bool_decide as Hhost; [|done]. cbn [negb] in H.
    rewrite existsb_app in H.
    destruct (existsb _ (kept_segments base)) eqn:He; [done|].
    cbn [orb existsb NodeUrl.has_encoded_separator] in H.
    change (existsb _ ["lib"; "src"]) with false in H. cbv iota in H.
    rewrite decode_segments_app in H.
    cbn [platform_segment]. rewrite list_fmap_id.
    destruct (decode_segments (kept_segments base)) as [dirs| |]; [|done..].
    change (decode_segments ["lib"; "src"]) with (Returns ["lib"; "src"]) in H.
    cbn in H. injection H as <-.
    exists dirs. repeat split; try done.
    cbn [native_path].
    destruct (join_segments_rooted "/" (dirs ++ ["lib"; "src"])) as [r ->];
      [by destruct dirs|]. done.
  - rewrite (fileURLToPath_win32 _ _ _ Hs' Hp'), Hh' in H.
    rewrite existsb_app in H.
    destruct (existsb _ (kept_segments base)) eqn:He; [done|].
    change (existsb _ ["lib"; "src"]) with false in H. cbv iota in H.
    rewrite fmap_app, decode_segments_app in H.
    cbn [platform_segment].
    destruct (decode_segments (_ <$> kept_segments base)) as [dirs| |]; [|done..].
    change (decode_segments (_ <$> ["lib"; "src"]))
      with (Returns ["lib"; "src"]) in H.
    cbn [mbind Outcome_bind] in H.
    exists dirs. cbn [native_path].
    case_bool_decide as Hhost; cbn [negb] in H.
    + apply win32_local_inv in H as [-> Hr]. by repeat split.
    + injection H as <-. by repeat split.
Qed.

End Shape.

Section Absolute.

Variable domainToUnicode : string -> string.

Lemma app_lib_src_absolute env base p :
  import_meta_url env = Some base ->
  has_native_root (platform env) base = true ->
  app_lib_src domainToUnicode env = Returns p ->
  is_absolute (platform env) p = true.
Proof.
  intros Hb Hroot Hp.
  destruct (app_lib_src_shape _ _ _ Hp)
    as (base' & dirs & Hb' & Hs & Ho & Hdirs & _ & -> & Hr).
  rewrite Hb in Hb'. injection Hb' as <-.
  destruct (platform env); [done|].
  cbn [native_path has_native_root] in *.
  case_bool_decide as Hhost; [|done].
  cbn [negb orb] in Hroot.
  unfold kept_segments in Hdirs. rewrite Hs in Hdirs.
  destruct (URLStd.segments_of base) as [|d segs]; [done|].
  destruct (shorten_segments_keeps_drive d segs Hroot) as [r Hkept].
  rewrite Hkept in Hdirs.
  cbn [fmap list_fmap decode_segments platform_segment] in Hdirs.
  rewrite (drive_letter_decodes d Hroot) in Hdirs.
  cbn [mbind Outcome_bind] in Hdirs.
  apply Outcome_bind_returns in Hdirs as (r' & _ & [= <-]).
  apply drive_letter_inv in Hroot as (a & -> & Ha).
  rewrite <- app_comm_cons. cbn [join_segments string_tail].
  rewrite !append_cons, append_nil_l.
  destruct (join_segments_rooted "\" (r' ++ ["lib"; "src"])) as [t ->];
    [by destruct r'|].
  cbn [is_absolute]. rewrite Ha. by rewrite orb_true_r.
Qed.

Lemma URL_constructor_embedded parsedBase :
  URLStd.URL_constructor "../lib/src" parsedBase <> OutsideModel.
Proof.
  destruct parsedBase as [base|]; [|done].
  rewrite URL_constructor_lib_src. by destruct (URLStd.has_opaque_path base).
Qed.

End Absolute.

(** ** Evaluation at a native file URL *)

Section Success.

Variable domainToUnicode : string -> string.

Lemma app_lib_src_at_native_file_url env base :
  import_meta_url env = Some base ->
  is_file_url base = true ->
  names_native_path domainToUnicode (platform env) base = true ->
  exists p, app_lib_src domainToUnicode env = Returns p.
Proof.
  intros Hb (Hs & segs & Hp & _)%is_file_url_inv
         [Hconv Hnative]%andb_true_iff.
  rewrite app_lib_src_unfold, Hb.
  assert (Ho : URLStd.has_opaque_path base = false)
    by (unfold URLStd.has_opaque_path; by rewrite Hp).
  rewrite Ho.
  destruct (lib_src_url_file base segs Hs Hp) as (Hs' & Hp' & Hh').
  destruct (kept_prefix "file" segs) as [rest Hrest].
  set (kept := URLStd.shorten_segments "file"
                 (URLStd.shorten_segments "file" segs)) in *.
  destruct (platform env).
  - rewrite (fileURLToPath_posix _ _ _ Hs Hp) in Hconv.
    rewrite (fileURLToPath_posix _ _ _ Hs' Hp'), Hh'.
    destruct (negb _); [done|].
    destruct (existsb _ segs) eqn:He; [done|].
    rewrite Hrest in He, Hconv. apply existsb_prefix in He.
    rewrite existsb_app, He. change (existsb _ ["lib"; "src"]) with false.
    cbn [orb]. rewrite decode_segments_app.
    destruct (decode_segments_prefix kept rest) as [dirs ->].
    { by destruct (decode_segments (kept ++ rest)). }
    cbn. eauto.
  - rewrite (fileURLToPath_win32 _ _ _ Hs Hp) in Hconv.
    rewrite (fileURLToPath_win32 _ _ _ Hs' Hp'), Hh'.
    destruct (existsb _ segs) eqn:He; [done|].
    rewrite Hrest in He. apply existsb_prefix in He.
    rewrite existsb_app, He. change (existsb _ ["lib"; "src"]) with false.
    cbn [orb]. rewrite fmap_app, decode_segments_app.
    destruct (decode_segments (replace_char "/" "\" <$> segs))
      as [all| |] eqn:Hall; [|done..].
    rewrite Hrest, fmap_app in Hall.
    destruct (decode_segments_prefix (replace_char "/" "\" <$> kept)
                (replace_char "/" "\" <$> rest)) as [dirs Hdirs].
    { by rewrite Hall. }
    rewrite Hdirs.
    change (decode_segments (_ <$> ["lib"; "src"]))
      with (Returns ["lib"; "src"]).
    cbn [mbind Outcome_bind].
    destruct (negb (bool_decide (URLStd.hostname base = ""))) eqn:Hhost;
      [eauto|].
    cbn [has_native_root] in Hnative. rewrite Hhost in Hnative.
    cbn [orb] in Hnative. unfold URLStd.segments_of in Hnative.
    rewrite Hp in Hnative.
    destruct segs as [|d segs]; [done|].
    destruct (shorten_segments_keeps_drive d segs Hnative) as [r Hr].
    subst kept. rewrite Hr in Hdirs.
    cbn [fmap list_fmap decode_segments] in Hdirs.
    rewrite (drive_letter_decodes d Hnative) in Hdirs.
    cbn [mbind Outcome_bind] in Hdirs.
    apply Outcome_bind_returns in Hdirs as (r' & _ & [= <-]).
    rewrite <- app_comm_cons.
    rewrite (win32_local_drive d _ Hnative). eauto.
Qed.

End Success.

(** ** What [decodeURIComponent] can produce *)

Lemma hex_digit_bound c n : ES.hex_digit c = Some n -> n < 16.
Proof.
  destruct c as [[] [] [] [] [] [] [] []]; vm_compute; intros [= <-]; done.
Qed.

Lemma hex_digit_inv c n :
  ES.hex_digit c = Some n ->
  (n = 2 -> c = "2"%char) /\ (n = 5 -> c = "5"%char) /\
  (n = 14 -> N.lor (code c) 32 = 101) /\
  (n = 15 -> N.lor (code c) 32 = 102) /\
  (n = 12 -> N.lor (code c) 32 = 99).
Proof.
  destruct c as [[] [] [] [] [] [] [] []]; vm_compute; intros [= <-];
    by repeat split.
Qed.

Lemma ParseHexOctet_inv h1 h2 B :
  ES.ParseHexOctet h1 h2 = Some B ->
  exists a b, ES.hex_digit h1 = Some a /\ ES.hex_digit h2 = Some b /\
              a < 16 /\ b < 16 /\ B = 16 * a + b.
Proof.
  unfold ES.ParseHexOctet.
  destruct (ES.hex_digit h1) as [a|] eqn:Ha; [|done].
  destruct (ES.hex_digit h2) as [b|] eqn:Hb; [|done].
  intros [= <-]. exists a, b.
  by repeat split; eauto using hex_digit_bound.
Qed.

Lemma ParseHexOctet_bound h1 h2 B : ES.ParseHexOctet h1 h2 = Some B -> B < 256.
Proof. intros (a & b & _ & _ & Ha & Hb & ->)%ParseHexOctet_inv. lia. Qed.

Lemma leading_ones_ge_2 B k : ES.leading_ones B = S (S k) -> 192 <= B.
Proof.
  unfold ES.leading_ones.
  destruct (B <? 128) eqn:H1; [done|].
  destruct (B <? 192) eqn:H2; [done|].
  intros _. by apply N.ltb_ge in H2.
Qed.

Lemma leading_ones_0 B : ES.leading_ones B = 0%nat -> B < 128.
Proof.
  unfold ES.leading_ones.
  destruct (B <? 128) eqn:H1; [by apply N.ltb_lt in H1|].
  by repeat (destruct (_ <? _)).
Qed.

Lemma is_continuation_range b : ES.is_continuation b = true -> 128 <= b < 256.
Proof.
  unfold ES.is_continuation. intros [H1 H2]%andb_true_iff.
  apply N.leb_le in H1, H2. lia.
Qed.

Lemma utf8_code_point_tail b l :
  is_Some (ES.utf8_code_point (b :: l)) -> Forall (fun b => 128 <= b < 256) l.
Proof.
  intros [v Hv]. unfold ES.utf8_code_point in Hv.
  destruct l as [|b1 [|b2 [|b3 [|b4 l]]]]; try done.
  - destruct (ES.is_continuation b1) eqn:H1; [|done].
    repeat (constructor; [by apply is_continuation_range|]). constructor.
  - destruct (ES.is_continuation b1) eqn:H1; [|done].
    destruct (ES.is_continuation b2) eqn:H2; [|done].
    repeat (constructor; [by apply is_continuation_range|]). constructor.
  - destruct (ES.is_continuation b1) eqn:H1; [|done].
    destruct (ES.is_continuation b2) eqn:H2; [|done].
    destruct (ES.is_continuation b3) eqn:H3; [|done].
    repeat (constructor; [by apply is_continuation_range|]). constructor.
Qed.

Lemma Decode_decodes_bounded n : forall s pending d,
  (String.length s <= n)%nat ->
  ES.Decode pending s = Returns d ->
  match pending with
  | None => decodes s d
  | Some (j, Octets) =>
      exists esc conts s' d',
        s = esc +:+ s' /\
        d = ES.string_of_octets (Octets ++ conts) +:+ d' /\
        is_Some (ES.utf8_code_point (Octets ++ conts)) /\
        decodes s' d'
  end.
Proof.
  induction n as [|n IH]; intros s pending d Hlen.
  - destruct s; [|simpl in Hlen; lia].
    destruct pending as [[j Octets]|]; simpl; [done|].
    intros [= <-]. constructor.
  - destruct pending as [[j Octets]|].
    + destruct s as [|C [|h1 [|h2 r]]]; try done.
      assert (Hr : (String.length r <= n)%nat) by (simpl in Hlen; lia).
      cbn [ES.Decode].
      destruct (Ascii.eqb C "%") eqn:HC; [|done].
      apply Ascii.eqb_eq in HC as ->.
      destruct (ES.ParseHexOctet h1 h2) as [cb|] eqn:Hcb; [|done].
      assert (Hlast : match ES.utf8_code_point (Octets ++ [cb]) with
                      | Some _ => String.append
                                    (ES.string_of_octets (Octets ++ [cb]))
                                  <$> ES.Decode None r
                      | None => Throws URIError
                      end = Returns d ->
              exists esc conts s' d',
                String "%" (String h1 (String h2 r)) = esc +:+ s' /\
                d = ES.string_of_octets (Octets ++ conts) +:+ d' /\
                is_Some (ES.utf8_code_point (Octets ++ conts)) /\
                decodes s' d').
      { destruct (ES.utf8_code_point (Octets ++ [cb])) eqn:Hu; [|done].
        intros (d1 & Hd1 & ->)%Outcome_fmap_returns.
        exists (String "%" (String h1 (String h2 ""))), [cb], r, d1.
        split; [done|]. split; [done|]. split; [by rewrite Hu|].
        apply (IH r None d1 Hr Hd1). }
      destruct j as [|[|j]]; [done..|].
      intros H.
      destruct (IH r _ d Hr H) as (esc & conts & s' & d' & -> & -> & Hu & Hd).
      exists (String "%" (String h1 (String h2 esc))), (cb :: conts), s', d'.
      rewrite <- app_assoc in Hu |- *. by repeat split.
    + destruct s as [|C r]; [by intros [= <-]; constructor|].
      cbn [ES.Decode]. destruct (Ascii.eqb C "%") eqn:HC.
      * apply Ascii.eqb_eq in HC as ->.
        destruct r as [|h1 [|h2 r]]; try done.
        assert (Hr : (String.length r <= n)%nat) by (simpl in Hlen; lia).
        destruct (ES.ParseHexOctet h1 h2) as [B|] eqn:HB; [|done].
        destruct (ES.leading_ones B) as [|[|k]] eqn:HL; [|done|].
        -- intros (d1 & Hd1 & ->)%Outcome_fmap_returns.
           apply decodes_escape; [done|by apply leading_ones_0|].
           apply (IH r None d1 Hr Hd1).
        -- destruct (k <? 3)%nat; [|done]. intros H.
           destruct (IH r _ d Hr H)
             as (esc & conts & s' & d' & -> & -> & Hu & Hd).
           change (String "%" (String h1 (String h2 (esc +:+ s'))))
             with (String "%" (String h1 (String h2 esc)) +:+ s').
           cbn [app] in Hu |- *. apply decodes_sequence; [|done].
           constructor.
           ++ pose proof (leading_ones_ge_2 B k HL).
              pose proof (ParseHexOctet_bound h1 h2 B HB). lia.
           ++ by apply (utf8_code_point_tail B).
      * assert (Hr : (String.length r <= n)%nat) by (simpl in Hlen; lia).
        intros (d1 & Hd1 & ->)%Outcome_fmap_returns.
        apply decodes_plain; [done|]. apply (IH r None d1 Hr Hd1).
Qed.

Lemma Decode_decodes s d : ES.decodeURIComponent s = Returns d -> decodes s d.
Proof. apply (Decode_decodes_bounded (String.length s) s None d). lia. Qed.

Lemma code_ascii_of_N b : b < 256 -> code (ascii_of_N b) = b.
Proof. apply N_ascii_embedding. Qed.

Lemma octet_not_char b c : 128 <= b < 256 -> code c < 128 -> ascii_of_N b <> c.
Proof. intros Hb Hc <-. rewrite code_ascii_of_N in Hc; lia. Qed.

Lemma decodes_empty s : decodes s "" -> s = "".
Proof. inversion 1; done. Qed.

Lemma escape_is_dot h1 h2 :
  ES.ParseHexOctet h1 h2 = Some 46 ->
  h1 = "2"%char /\ (h2 = "e"%char \/ h2 = "E"%char).
Proof.
  intros (a & b & Ha & Hb & Hla & Hlb & Heq)%ParseHexOctet_inv.
  assert (a = 2 /\ b = 14) as [-> ->] by lia.
  split; [by apply (hex_digit_inv h1 2 Ha)|].
  clear -Hb.
  destruct h2 as [[] [] [] [] [] [] [] []]; vm_compute in Hb; try done; auto.
Qed.

(** The inputs that decode to a string starting with a dot. *)
Lemma decodes_dot s d :
  decodes s (String "." d) ->
  exists x r, s = x +:+ r /\ decodes r d /\
              (x = "." \/ x = "%2e" \/ x = "%2E").
Proof.
  inversion 1 as [|c s' d' Hc Hd|h1 h2 B s' d' HB Hlt Hd Hs Heq
                  |esc b octets s' d' Hall Hd]; subst.
  - exists ".", s'. auto.
  - assert (B = 46) as ->.
    { rewrite <- (code_ascii_of_N B) by lia. by rewrite Heq. }
    apply escape_is_dot in HB as [-> [-> | ->]].
    + exists "%2e", s'. auto.
    + exists "%2E", s'. auto.
  - exfalso. inversion Hall; subst.
    by eapply (octet_not_char b "."); [|vm_compute|].
Qed.

Lemma decodes_single_dot s : decodes s "." -> URLStd.is_single_dot s = true.
Proof.
  intros (x & r & -> & ->%decodes_empty & [-> | [-> | ->]])%decodes_dot;
    by vm_compute.
Qed.

Lemma decodes_double_dot s : decodes s ".." -> URLStd.is_double_dot s = true.
Proof.
  intros (x & r & -> & Hr & Hx)%decodes_dot.
  apply decodes_dot in Hr as (y & r' & -> & ->%decodes_empty & Hy).
  destruct Hx as [-> | [-> | ->]], Hy as [-> | [-> | ->]]; by vm_compute.
Qed.

(** No decoded character is a separator when none was written or encoded. *)
Lemma path_separator_code p c : path_separator p c = true -> code c < 128.
Proof.
  intros H. assert (Hs : is_separator c = true).
  { destruct p; [|done]. unfold is_separator.
    cbn [path_separator] in H. by rewrite H. }
  by apply separator_cases in Hs as [-> | ->]; vm_compute.
Qed.

Lemma path_separator_is_separator p c :
  is_separator c = false -> path_separator p c = false.
Proof.
  destruct p; [|done]. unfold is_separator. by intros [? _]%orb_false_iff.
Qed.

Lemma has_encoded_separator_tail bs c s :
  NodeUrl.has_encoded_separator bs (String c s) = false ->
  NodeUrl.has_encoded_separator bs s = false.
Proof. cbn [NodeUrl.has_encoded_separator]. by intros [_ ?]%orb_false_iff. Qed.

Lemma has_encoded_separator_suffix bs a s :
  NodeUrl.has_encoded_separator bs (a +:+ s) = false ->
  NodeUrl.has_encoded_separator bs s = false.
Proof.
  induction a as [|c a IH]; [done|]. rewrite append_cons.
  intros H%has_encoded_separator_tail. auto.
Qed.

Lemma string_forallb_suffix f a s :
  string_forallb f (a +:+ s) = true -> string_forallb f s = true.
Proof.
  induction a as [|c a IH]; [done|]. rewrite append_cons. simpl.
  intros [_ ?]%andb_true_iff. auto.
Qed.

Lemma escape_not_separator p h1 h2 B s :
  ES.ParseHexOctet h1 h2 = Some B -> B < 128 ->
  NodeUrl.has_encoded_separator (rejects_backslash p)
    (String "%" (String h1 (String h2 s))) = false ->
  path_separator p (ascii_of_N B) = false.
Proof.
  intros HB Hlt He.
  destruct (path_separator p (ascii_of_N B)) eqn:Hsep; [exfalso|done].
  cbn [NodeUrl.has_encoded_separator] in He.
  apply orb_false_iff in He as [He _].
  change (Ascii.eqb "%" "%") with true in He. cbn [andb] in He.
  apply ParseHexOctet_inv in HB as (a & b & Ha & Hb & Hla & Hlb & ->).
  assert (Hcases : (ascii_of_N (16 * a + b) = "/"%char) \/
                   (p = win32 /\ ascii_of_N (16 * a + b) = "\"%char)).
  { destruct p; cbn [path_separator] in Hsep.
    - left. by apply Ascii.eqb_eq.
    - apply separator_cases in Hsep as [?|?]; auto. }
  destruct Hcases as [Hc | [-> Hc]];
    apply (f_equal code) in Hc; rewrite code_ascii_of_N in Hc by lia;
    [change (code "/") with 47 in Hc | change (code "\") with 92 in Hc].
  - assert (a = 2 /\ b = 15) as [-> ->] by lia.
    rewrite (proj1 (hex_digit_inv h1 2 Ha) eq_refl) in He.
    rewrite (proj1 (proj2 (proj2 (proj2 (hex_digit_inv h2 15 Hb)))) eq_refl)
      in He.
    done.
  - assert (a = 5 /\ b = 12) as [-> ->] by lia.
    rewrite (proj1 (proj2 (hex_digit_inv h1 5 Ha)) eq_refl) in He.
    rewrite (proj2 (proj2 (proj2 (proj2 (hex_digit_inv h2 12 Hb)))) eq_refl)
      in He.
    done.
Qed.

Lemma octets_no_separator p octets d :
  Forall (fun b => 128 <= b < 256) octets ->
  no_separator p d = true ->
  no_separator p (ES.string_of_octets octets +:+ d) = true.
Proof.
  intros Hall Hd. induction Hall as [|b octets Hb Hall IH]; [done|].
  cbn [ES.string_of_octets]. rewrite append_cons.
  unfold no_separator in *. cbn [string_forallb]. rewrite IH, andb_true_r.
  destruct (path_separator p (ascii_of_N b)) eqn:Hsep; [|done].
  apply path_separator_code in Hsep. rewrite code_ascii_of_N in Hsep; lia.
Qed.

Lemma decodes_no_separator p s d :
  decodes s d ->
  NodeUrl.has_encoded_separator (rejects_backslash p) s = false ->
  string_forallb (fun c => negb (is_separator c)) s = true ->
  no_separator p d = true.
Proof.
  induction 1 as [|c s d Hc Hd IH|h1 h2 B s d HB Hlt Hd IH
                  |esc b octets s d Hall Hd IH]; intros He Hraw.
  - done.
  - cbn [string_forallb] in Hraw. apply andb_true_iff in Hraw as [Hc' Hraw].
    unfold no_separator in *. cbn [string_forallb].
    rewrite (path_separator_is_separator p c) by by apply negb_true_iff.
    apply IH; [by eapply has_encoded_separator_tail|done].
  - unfold no_separator in *. cbn [string_forallb].
    rewrite (escape_not_separator p h1 h2 B s HB Hlt He). cbn [negb andb].
    apply IH.
    + by do 3 apply has_encoded_separator_tail in He.
    + cbn [string_forallb] in Hraw.
      by repeat (apply andb_true_iff in Hraw as [_ Hraw]).
  - apply octets_no_separator; [done|]. apply IH.
    + by eapply has_encoded_separator_suffix.
    + by eapply string_forallb_suffix.
Qed.

(** ** Splitting a joined path *)

Lemma split_path_app sepf d t x xs :
  string_forallb (fun c => negb (sepf c)) d = true ->
  split_path sepf t = x :: xs ->
  split_path sepf (d +:+ t) = (d +:+ x) :: xs.
Proof.
  intros Hd Ht. induction d as [|c d IH]; [done|].
  cbn [string_forallb] in Hd. apply andb_true_iff in Hd as [Hc Hd].
  rewrite append_cons. cbn [split_path].
  apply negb_true_iff in Hc. by rewrite Hc, (IH Hd).
Qed.

Lemma split_path_join sepf sep ds :
  sepf sep = true ->
  Forall (fun d => string_forallb (fun c => negb (sepf c)) d = true) ds ->
  split_path sepf (join_segments sep ds) = "" :: ds.
Proof.
  intros Hsep. induction 1 as [|d ds Hd Hds IH]; [done|].
  cbn [join_segments split_path].
  rewrite Hsep, (split_path_app _ _ _ _ _ Hd IH).
  by rewrite append_nil_r.
Qed.

Lemma split_path_join_tail sepf sep d ds :
  sepf sep = true ->
  Forall (fun d => string_forallb (fun c => negb (sepf c)) d = true) (d :: ds) ->
  split_path sepf (string_tail (join_segments sep (d :: ds))) = d :: ds.
Proof.
  intros Hsep Hall. inversion Hall as [|? ? Hd Hds]; subst.
  cbn [join_segments string_tail].
  rewrite (split_path_app _ _ _ _ _ Hd (split_path_join _ _ _ Hsep Hds)).
  by rewrite append_nil_r.
Qed.

(** ** The decoded directories of a parsed URL *)

Lemma platform_segment_id p seg :
  is_url_path_segment seg = true -> platform_segment p seg = seg.
Proof.
  unfold is_url_path_segment.
  intros [[Hraw _]%andb_true_iff _]%andb_true_iff.
  destruct p; [done|]. cbn [platform_segment]. apply replace_char_id.
  clear -Hraw. induction seg as [|c s IH]; [done|].
  cbn [string_forallb] in *. apply andb_true_iff in Hraw as [Hc Hs].
  rewrite (IH Hs), andb_true_r. unfold is_separator in Hc.
  by destruct (Ascii.eqb c "/").
Qed.

Lemma platform_segments_id p segs :
  forallb is_url_path_segment segs = true ->
  platform_segment p <$> segs = segs.
Proof.
  induction segs as [|s r IH]; [done|]. cbn [forallb fmap list_fmap].
  intros [Hs Hr]%andb_true_iff. fold (fmap (M := list) (platform_segment p) r).
  by rewrite (platform_segment_id p s Hs), (IH Hr).
Qed.

Lemma decoded_segment_clean p seg d :
  is_url_path_segment seg = true ->
  NodeUrl.has_encoded_separator (rejects_backslash p) seg = false ->
  ES.decodeURIComponent seg = Returns d ->
  d <> ".." /\ d <> "." /\ no_separator p d = true.
Proof.
  unfold is_url_path_segment.
  intros [[Hraw Hsd]%andb_true_iff Hdd]%andb_true_iff He Hd%Decode_decodes.
  apply negb_true_iff in Hsd, Hdd.
  split; [|split].
  - intros ->. apply decodes_double_dot in Hd. congruence.
  - intros ->. apply decodes_single_dot in Hd. congruence.
  - by apply (decodes_no_separator p seg d).
Qed.

Lemma decoded_segments_clean p segs dirs :
  forallb is_url_path_segment segs = true ->
  existsb (NodeUrl.has_encoded_separator (rejects_backslash p)) segs = false ->
  decode_segments segs = Returns dirs ->
  Forall (fun d => d <> ".." /\ d <> "." /\ no_separator p d = true) dirs.
Proof.
  revert dirs. induction segs as [|s r IH]; intros dirs.
  - intros _ _ [= <-]. constructor.
  - cbn [forallb existsb decode_segments].
    intros [Hs Hr]%andb_true_iff [He Her]%orb_false_iff
           (d & Hd & (ds & Hds & [= <-])%Outcome_bind_returns)%Outcome_bind_returns.
    constructor; [by apply (decoded_segment_clean p s d)|by apply IH].
Qed.

Lemma lib_src_clean p :
  Forall (fun d => d <> ".." /\ d <> "." /\ no_separator p d = true)
         ["lib"; "src"].
Proof. repeat constructor; try done; by destruct p. Qed.

(** ** Literals in the heap *)

#[local] Set Warnings "-clear-no-such-hyp".

Lemma JSValue_nested_ind (P : JSValue -> Prop) :
  (forall s, P (JSString s)) ->
  (forall elems, Forall P elems -> P (JSArray elems)) ->
  (forall props, Forall (fun kv => P kv.2) props -> P (JSObject props)) ->
  forall v, P v.
Proof.
  intros Hs Ha Ho. fix IH 1. intros [s|elems|props].
  - apply Hs.
  - apply Ha. induction elems as [|e r IHr]; constructor; [apply IH|apply IHr].
  - apply Ho. induction props as [|[k e] r IHr]; constructor;
      [apply IH|apply IHr].
Qed.

Lemma new_objects_closed_trans (σ σ1 σ2 : Heap) :
  σ ⊆ σ1 -> σ1 ⊆ σ2 ->
  new_objects_closed σ σ1 -> new_objects_closed σ1 σ2 ->
  new_objects_closed σ σ2.
Proof.
  intros H01 H12 C01 C12 l o Hl Hnew l' Hl'.
  pose proof (subseteq_dom _ _ H01) as D01.
  pose proof (subseteq_dom _ _ H12) as D12.
  destruct (σ1 !! l) as [o1|] eqn:H1.
  - assert (o1 = o) as ->.
    { pose proof (lookup_weaken _ _ _ _ H1 H12). congruence. }
    destruct (C01 l o H1 Hnew l' Hl') as [? ?]. set_solver.
  - apply not_elem_of_dom in H1.
    destruct (C12 l o Hl H1 l' Hl') as [? ?]. set_solver.
Qed.

Lemma new_objects_closed_refl (σ : Heap) : new_objects_closed σ σ.
Proof. intros l o Hl Hnew. apply elem_of_dom_2 in Hl. done. Qed.

Lemma alloc_spec (σ0 σ : Heap) o l σ' :
  σ0 ⊆ σ ->
  new_objects_closed σ0 σ ->
  (forall l', l' ∈ object_refs o -> l' ∈ dom σ /\ l' ∉ dom σ0) ->
  alloc o σ = (l, σ') ->
  σ ⊆ σ' /\ σ' !! l = Some o /\ l ∈ dom σ' /\ (l ∉ dom σ) /\
  new_objects_closed σ0 σ'.
Proof.
  intros H0 C0 Ho [= <- <-].
  pose proof (is_fresh (dom σ)) as Hfresh.
  assert (Hnone : σ !! fresh (dom σ) = None) by by apply not_elem_of_dom.
  split; [by apply insert_subseteq|].
  split; [by rewrite lookup_insert_eq|].
  split; [rewrite dom_insert_L; set_solver|]. split; [done|].
  intros l o' Hl Hnew l' Hl'.
  destruct (decide (l = fresh (dom σ))) as [->|Hne].
  - rewrite lookup_insert_eq in Hl. injection Hl as <-.
    destruct (Ho l' Hl') as [? ?]. rewrite dom_insert_L. set_solver.
  - rewrite lookup_insert_ne in Hl by done.
    destruct (C0 l o' Hl Hnew l' Hl') as [? ?].
    rewrite dom_insert_L. set_solver.
Qed.

Section StoreList.

Context {A B : Type}.
Variable store : A -> Heap -> B * Heap.
Variable refs_of : B -> list positive.
Variable depth : A -> nat.
Variable read : nat -> Heap -> B -> option A.

Lemma store_list_spec xs :
  Forall (stored_well store refs_of depth read) xs ->
  forall σ ys σ', store_list store xs σ = (ys, σ') ->
    σ ⊆ σ' /\
    (forall l, l ∈ ys ≫= refs_of -> l ∈ dom σ' /\ l ∉ dom σ) /\
    new_objects_closed σ σ' /\
    (forall σ'' n, σ' ⊆ σ'' ->
       (foldr Nat.max 0%nat (depth <$> xs) <= n)%nat ->
       mapM (read n σ'') ys = Some xs).
Proof.
  induction 1 as [|x xs Hx Hxs IH]; intros σ ys σ'.
  - intros [= <- <-]. split; [done|]. split; [set_solver|].
    split; [apply new_objects_closed_refl|done].
  - cbn [store_list].
    destruct (store x σ) as [y σ1] eqn:Hy.
    destruct (store_list store xs σ1) as [ys' σ2] eqn:Hys.
    intros [= <- <-].
    destruct (Hx _ _ _ Hy) as (E1 & F1 & C1 & R1).
    destruct (IH _ _ _ Hys) as (E2 & F2 & C2 & R2).
    pose proof (subseteq_dom _ _ E1) as D1.
    pose proof (subseteq_dom _ _ E2) as D2.
    split; [by etrans|]. split; [|split].
    + intros l. rewrite bind_cons, elem_of_app. intros [Hl|Hl].
      * destruct (F1 l Hl). set_solver.
      * destruct (F2 l Hl). set_solver.
    + by eapply new_objects_closed_trans.
    + intros σ'' n Hσ Hn. cbn [fmap list_fmap foldr] in Hn.
      assert (H1 : σ1 ⊆ σ'') by (by etrans).
      cbn [mapM]. rewrite (R1 σ'' n H1) by lia.
      cbn. rewrite (R2 σ'' n Hσ) by lia. done.
Qed.

End StoreList.

Lemma store_literal_spec v :
  stored_well store_literal value_refs literal_depth read_back v.
Proof.
  induction v as [s|elems IH|props IH] using JSValue_nested_ind;
    intros σ y σ'.
  - intros [= <- <-]. split; [done|]. split; [set_solver|].
    split; [apply new_objects_closed_refl|]. by intros σ'' [|n].
  - cbn [store_literal].
    destruct (store_list store_literal elems σ) as [xs σ1] eqn:Hxs.
    destruct (alloc (HArray xs) σ1) as [l σ2] eqn:Hl.
    intros [= <- <-].
    destruct (store_list_spec _ _ _ _ elems IH _ _ _ Hxs)
      as (E1 & F1 & C1 & R1).
    destruct (alloc_spec σ σ1 (HArray xs) _ _ E1 C1 F1 Hl)
      as (E2 & L2 & D2 & N2 & C2).
    pose proof (subseteq_dom _ _ E1) as D1.
    split; [by etrans|]. split; [|split; [done|]].
    + intros l' ->%list_elem_of_singleton. set_solver.
    + intros σ'' [|n] Hσ Hn; [cbn in Hn; lia|].
      cbn [read_back]. rewrite (lookup_weaken _ _ _ _ L2 Hσ).
      assert (H1 : σ1 ⊆ σ'') by (by etrans).
      rewrite (R1 σ'' n H1) by (cbn in Hn; lia). done.
  - cbn [store_literal].
    destruct (store_list _ props σ) as [xs σ1] eqn:Hxs.
    destruct (alloc (HObject xs) σ1) as [l σ2] eqn:Hl.
    intros [= <- <-].
    assert (IH' : Forall
              (stored_well
                 (fun kv σ => let '(x, σ) := store_literal kv.2 σ in
                              ((kv.1, x), σ))
                 (fun kv => value_refs kv.2)
                 (fun kv => literal_depth kv.2)
                 (fun n σ kv => pair kv.1 <$> read_back n σ kv.2))
              props).
    { eapply Forall_impl; [exact IH|].
      intros [k e] He σa [k' x] σb. cbn.
      destruct (store_literal e σa) as [x' σc] eqn:Hs. intros [= <- <- <-].
      destruct (He _ _ _ Hs) as (Ea & Fa & Ca & Ra).
      split; [done|]. split; [done|]. split; [done|].
      intros σ'' n Hσ Hn. by rewrite (Ra σ'' n Hσ Hn). }
    destruct (store_list_spec _ _ _ _ props IH' _ _ _ Hxs)
      as (E1 & F1 & C1 & R1).
    destruct (alloc_spec σ σ1 (HObject xs) _ _ E1 C1 F1 Hl)
      as (E2 & L2 & D2 & N2 & C2).
    pose proof (subseteq_dom _ _ E1) as D1.
    split; [by etrans|]. split; [|split; [done|]].
    + intros l' ->%list_elem_of_singleton. set_solver.
    + intros σ'' [|n] Hσ Hn; [cbn in Hn; lia|].
      cbn [read_back]. rewrite (lookup_weaken _ _ _ _ L2 Hσ).
      assert (H1 : σ1 ⊆ σ'') by (by etrans).
      rewrite (R1 σ'' n H1) by (cbn in Hn; lia). done.
Qed.

Section Runs.

Variable domainToUnicode : string -> string.

Lemma evaluate_extends m env σ r σ' :
  evaluate domainToUnicode m env σ = Returns (r, σ') -> σ ⊆ σ'.
Proof.
  unfold evaluate.
  intros (config & _ & [= H])%Outcome_bind_returns.
  by destruct (store_literal_spec config _ _ _ H).
Qed.

Lemma run_extends ops : forall σ, σ ⊆ run domainToUnicode ops σ.
Proof.
  induction ops as [|[m env] ops IH]; intros σ; [done|].
  cbn [run].
  destruct (evaluate domainToUnicode m env σ) as [[r σ']| |] eqn:He;
    [|apply IH..].
  etrans; [by eapply evaluate_extends|apply IH].
Qed.

End Runs.

Lemma reaches_own_objects (σ0 σ1 σ2 : Heap) v l :
  σ1 ⊆ σ2 ->
  new_objects_closed σ0 σ1 ->
  (forall l', l' ∈ value_refs v -> l' ∈ dom σ1 /\ l' ∉ dom σ0) ->
  reaches σ2 v l -> l ∈ dom σ1 /\ l ∉ dom σ0.
Proof.
  intros Hσ C Hv Hr. induction Hr as [l|l o l' l'' Hl Hl' Hr IH].
  - apply Hv. set_solver.
  - apply IH. intros x ->%list_elem_of_singleton.
    destruct (Hv l) as [Hin Hnew]; [set_solver|].
    apply elem_of_dom in Hin as [o1 H1].
    assert (o1 = o) as ->.
    { pose proof (lookup_weaken _ _ _ _ H1 Hσ). congruence. }
    by apply (C l o H1 Hnew).
Qed.

(** ** Unescaped directories *)



Lemma Decode_unescaped s :
  is_unescaped s = true -> ES.decodeURIComponent s = Returns s.
Proof.
  unfold ES.decodeURIComponent, is_unescaped.
  induction s as [|c s IH]; [done|]. cbn [string_forallb ES.Decode].
  intros [Hc Hs]%andb_true_iff. apply negb_true_iff in Hc.
  by rewrite Hc, (IH Hs).
Qed.

Lemma has_encoded_separator_unescaped bs s :
  is_unescaped s = true -> NodeUrl.has_encoded_separator bs s = false.
Proof.
  unfold is_unescaped. induction s as [|c s IH]; [done|].
  cbn [string_forallb NodeUrl.has_encoded_separator].
  intros [Hc Hs]%andb_true_iff. apply negb_true_iff in Hc.
  by rewrite Hc, (IH Hs).
Qed.


(** ** The kept directories and the two file paths *)

Lemma removelast_twice {A} (pre : list A) a f :
  removelast (removelast (pre ++ [a; f])) = pre.
Proof.
  change [a; f] with ([a] ++ [f]).
  by rewrite app_assoc, !removelast_last.
Qed.

Lemma kept_segments_directories_above base segs :
  URLStd.scheme base = "file" ->
  URLStd.path base = URLStd.Segments segs ->
  kept_segments base = directories_above segs.
Proof.
  intros Hs Hp.
  unfold kept_segments, directories_above, URLStd.segments_of.
  rewrite Hs, Hp.
  destruct (at_drive_root segs) eqn:Hd;
    [|by apply shorten_segments_not_at_drive_root].
  destruct segs as [|d [|e [|x segs]]]; try done.
  all: cbn [at_drive_root] in Hd.
  all: unfold URLStd.shorten_segments; cbn [removelast].
  all: change (bool_decide ("file" = "file")) with true.
  all: rewrite ?Hd; cbn [andb]; by rewrite ?Hd.
Qed.

Lemma decode_segments_decodes xs ds :
  decode_segments xs = Returns ds -> Forall2 decodes xs ds.
Proof.
  revert ds. induction xs as [|x xs IH]; intros ds.
  - intros [= <-]. constructor.
  - cbn [decode_segments].
    intros (d & Hd & (r & Hr & [= <-])%Outcome_bind_returns)
           %Outcome_bind_returns.
    constructor; [by apply Decode_decodes|by apply IH].
Qed.

Lemma decode_segments_package pre a f X :
  decode_segments (pre ++ [a; f]) = Returns X ->
  exists ds a' f',
    decode_segments pre = Returns ds /\
    ES.decodeURIComponent a = Returns a' /\
    ES.decodeURIComponent f = Returns f' /\
    X = ds ++ [a'; f'].
Proof.
  rewrite decode_segments_app.
  intros (ds & Hds & H)%Outcome_bind_returns.
  apply Outcome_bind_returns in H as (ys & Hys & [= <-]).
  cbn [decode_segments] in Hys.
  apply Outcome_bind_returns in Hys as (a' & Ha & Hys).
  apply Outcome_bind_returns in Hys as (r & Hr & [= <-]).
  apply Outcome_bind_returns in Hr as (f' & Hf & [= <-]).
  by exists ds, a', f'.
Qed.

Lemma decode_segments_unescaped segs :
  forallb is_unescaped segs = true -> decode_segments segs = Returns segs.
Proof.
  induction segs as [|s r IH]; [done|]. cbn [forallb decode_segments].
  intros [Hs Hr]%andb_true_iff. by rewrite (Decode_unescaped s Hs), (IH Hr).
Qed.

Lemma platform_segment_unescaped p s :
  is_unescaped s = true -> is_unescaped (platform_segment p s) = true.
Proof.
  destruct p; [done|]. cbn [platform_segment]. unfold is_unescaped.
  induction s as [|c s IH]; [done|]. cbn [string_forallb replace_char].
  intros [Hc Hs]%andb_true_iff.
  destruct (Ascii.eqb c "/") eqn:E; cbn [string_forallb];
    rewrite (IH Hs); [done|by rewrite Hc].
Qed.

Lemma platform_segments_unescaped p segs :
  forallb is_unescaped segs = true ->
  forallb is_unescaped (platform_segment p <$> segs) = true.
Proof.
  induction segs as [|s r IH]; [done|]. cbn [forallb fmap list_fmap].
  intros [Hs Hr]%andb_true_iff.
  fold (fmap (M := list) (platform_segment p) r).
  by rewrite (platform_segment_unescaped p s Hs), (IH Hr).
Qed.

Lemma decodes_nonempty s d : decodes s d -> s <> "" -> d <> "".
Proof.
  destruct 1; [done|done|done|].
  cbn [ES.string_of_octets]. by rewrite append_cons.
Qed.

Lemma decoded_segments_normalized p segs dirs :
  forallb is_url_path_segment segs = true ->
  Forall (fun s => s <> "") segs ->
  existsb (NodeUrl.has_encoded_separator (rejects_backslash p)) segs = false ->
  decode_segments segs = Returns dirs ->
  Forall (normalized_component p) dirs.
Proof.
  intros Hsegs Hne He Hd.
  pose proof (decoded_segments_clean p segs dirs Hsegs He Hd) as Hclean.
  apply decode_segments_decodes in Hd.
  clear Hsegs He. revert Hne Hclean.
  induction Hd as [|s d segs dirs Hsd _ IH]; intros Hne Hclean;
    [constructor|].
  inversion Hne; subst. inversion Hclean as [|? ? (? & ? & ?)]; subst.
  constructor; [|by apply IH].
  split; [by apply (decodes_nonempty s)|done].
Qed.

Lemma lib_src_normalized p : Forall (normalized_component p) ["lib"; "src"].
Proof. repeat constructor; try done; by destruct p. Qed.

Lemma split_native_path domainToUnicode p ds :
  ds <> [] ->
  Forall (normalized_component p) ds ->
  split_path (path_separator p) (native_path domainToUnicode p "" ds)
    = root_components p ++ ds.
Proof.
  intros Hne Hall.
  assert (Hns : Forall
            (fun d => string_forallb
               (fun c => negb (path_separator p c)) d = true) ds).
  { eapply Forall_impl; [exact Hall|]. by intros d (_ & _ & _ & ?). }
  destruct p; cbn [native_path root_components].
  - by apply split_path_join.
  - rewrite bool_decide_eq_true_2 by done.
    destruct ds as [|d ds]; [done|]. by apply split_path_join_tail.
Qed.

Section FilePath.

Variable domainToUnicode : string -> string.

Lemma fileURLToPath_shape p u segs file :
  URLStd.scheme u = "file" ->
  URLStd.path u = URLStd.Segments segs ->
  NodeUrl.fileURLToPath domainToUnicode p u = Returns file ->
  exists ds,
    decode_segments (platform_segment p <$> segs) = Returns ds /\
    existsb (NodeUrl.has_encoded_separator (rejects_backslash p)) segs
      = false /\
    file = native_path domainToUnicode p (URLStd.hostname u) ds.
Proof.
  intros Hs Hp H. destruct p.
  - rewrite (fileURLToPath_posix _ _ _ Hs Hp) in H.
    destruct (negb _); [done|].
    cbn [rejects_backslash platform_segment]. rewrite list_fmap_id.
    destruct (existsb _ segs); [done|].
    apply Outcome_fmap_returns in H as (ds & Hds & ->). by exists ds.
  - rewrite (fileURLToPath_win32 _ _ _ Hs Hp) in H.
    cbn [rejects_backslash].
    destruct (existsb _ segs); [done|].
    apply Outcome_bind_returns in H as (ds & Hds & H).
    exists ds. split; [done|]. split; [done|]. cbn [native_path].
    case_bool_decide as Hhost; cbn [negb] in H.
    + by apply win32_local_inv in H as [-> _].
    + by injection H as <-.
Qed.

End FilePath.

(** At [file:///ws/packages/app//vite.config.ts] the empty segment counts
    as the directory of the module: the alias lies inside the package. *)
Example app_alias_at_empty_segment :
  is_file_url empty_segment_url = true /\
  NodeUrl.fileURLToPath id posix empty_segment_url
    = Returns "/ws/packages/app//vite.config.ts" /\
  app_vite_config id (env_at (Some empty_segment_url) posix)
    = Returns (app_config_literal "/ws/packages/app/lib/src").
Proof. by vm_compute. Qed.

(** * The claims *)

(** ** The contents of the two configurations *)

(** C1 (amended). Whenever the application module evaluates, its default
    export is exactly [{ resolve: { alias: { '@test/lib': p } } }]: one
    top-level key, one resolve setting, one alias.  The module's own URL is
    then a [file:] URL with a path of segments, and [p] is the path that the
    platform writes for the host of that URL and the components
    [dirs ++ [lib; src]], where [dirs] are the decoded segments of the
    module's path without its last two (a drive letter at the head of a
    path of at most two segments stays); segments without [%] decode to
    themselves.  It is the string [fileURLToPath]
    returns for the URL that [new URL] resolves [../lib/src] to.  [p]
    starts at a root of the platform, and it is an absolute path when the
    module's URL has the root the platform needs: always on POSIX, on
    Windows with a host or a drive letter as first segment. *)
Theorem app_config_contents domainToUnicode env cfg :
  app_vite_config domainToUnicode env = Returns cfg ->
  exists base segs url dirs p,
    import_meta_url env = Some base /\
    URLStd.scheme base = "file" /\
    URLStd.path base = URLStd.Segments segs /\
    URLStd.URL_constructor "../lib/src" (Some base) = Returns url /\
    URLStd.scheme url = "file" /\
    URLStd.host url = URLStd.host base /\
    URLStd.path url =
      URLStd.Segments (directories_above segs ++ ["lib"; "src"]) /\
    NodeUrl.fileURLToPath domainToUnicode (platform env) url = Returns p /\
    decode_segments (platform_segment (platform env) <$> directories_above segs)
      = Returns dirs /\
    Forall2 decodes
      (platform_segment (platform env) <$> directories_above segs) dirs /\
    (forallb is_unescaped (directories_above segs) = true ->
     dirs = platform_segment (platform env) <$> directories_above segs) /\
    p = native_path domainToUnicode (platform env) (URLStd.hostname base)
          (dirs ++ ["lib"; "src"]) /\
    is_rooted (platform env) p = true /\
    (has_native_root (platform env) base = true ->
     is_absolute (platform env) p = true) /\
    cfg = JSObject [("resolve",
            JSObject [("alias", JSObject [("@test/lib", JSString p)])])] /\
    own_keys cfg = ["resolve"] /\
    (own_keys <$> get_property "resolve" cfg) = Some ["alias"] /\
    (own_keys <$> (get_property "resolve" cfg ≫= get_property "alias"))
      = Some ["@test/lib"].
Proof.
  rewrite app_vite_config_unfold.
  intros (p & Hp & ->)%Outcome_fmap_returns.
  destruct (app_lib_src_shape _ _ _ Hp)
    as (base & dirs & Hb & Hs & Ho & Hdirs & _ & Hpath & Hr).
  assert (Hsegs : exists segs, URLStd.path base = URLStd.Segments segs).
  { unfold URLStd.has_opaque_path in Ho.
    destruct (URLStd.path base); [done|eauto]. }
  destruct Hsegs as [segs Hsegs].
  exists base, segs, (lib_src_url base), dirs, p.
  assert (Habs : has_native_root (platform env) base = true ->
                 is_absolute (platform env) p = true).
  { intros Hroot. by apply (app_lib_src_absolute domainToUnicode env base). }
  pose proof (kept_segments_directories_above base segs Hs Hsegs) as Hk.
  rewrite Hk in Hdirs.
  pose proof (decode_segments_decodes _ _ Hdirs) as Hdec.
  assert (Hplain :
            forallb is_unescaped (directories_above segs) = true ->
            dirs = platform_segment (platform env) <$> directories_above segs).
  { intros Hun%(platform_segments_unescaped (platform env)).
    rewrite (decode_segments_unescaped _ Hun) in Hdirs. by injection Hdirs. }
  rewrite app_lib_src_unfold, Hb, Ho in Hp.
  rewrite URL_constructor_lib_src, Ho.
  unfold lib_src_url in *.
  rewrite bool_decide_eq_true_2 in * by done.
  cbn [URLStd.scheme URLStd.host URLStd.path]. rewrite Hk in Hp |- *.
  by repeat split.
Qed.

Lemma app_config_contents_witness :
  app_vite_config id (env_at (Some drive_workspace_url) win32)
    = Returns (app_config_literal "C:\ws\packages\lib\src") /\
  exists base segs url dirs p,
    import_meta_url (env_at (Some drive_workspace_url) win32) = Some base /\
    URLStd.scheme base = "file" /\
    URLStd.path base = URLStd.Segments segs /\
    URLStd.URL_constructor "../lib/src" (Some base) = Returns url /\
    URLStd.scheme url = "file" /\
    URLStd.host url = URLStd.host base /\
    URLStd.path url =
      URLStd.Segments (directories_above segs ++ ["lib"; "src"]) /\
    NodeUrl.fileURLToPath id win32 url = Returns p /\
    decode_segments (platform_segment win32 <$> directories_above segs)
      = Returns dirs /\
    Forall2 decodes (platform_segment win32 <$> directories_above segs) dirs /\
    (forallb is_unescaped (directories_above segs) = true ->
     dirs = platform_segment win32 <$> directories_above segs) /\
    p = native_path id win32 (URLStd.hostname base) (dirs ++ ["lib"; "src"]) /\
    is_rooted win32 p = true /\
    (has_native_root win32 base = true -> is_absolute win32 p = true) /\
    app_config_literal "C:\ws\packages\lib\src" =
      JSObject [("resolve",
        JSObject [("alias", JSObject [("@test/lib", JSString p)])])] /\
    own_keys (app_config_literal "C:\ws\packages\lib\src") = ["resolve"] /\
    (own_keys <$> get_property "resolve"
                    (app_config_literal "C:\ws\packages\lib\src"))
      = Some ["alias"] /\
    (own_keys <$> (get_property "resolve"
                     (app_config_literal "C:\ws\packages\lib\src")
                   ≫= get_property "alias"))
      = Some ["@test/lib"].
Proof.
  split; [by vm_compute|].
  apply (app_config_contents id (env_at (Some drive_workspace_url) win32)
           (app_config_literal "C:\ws\packages\lib\src")).
  by vm_compute.
Defined.

(** C1 as stated fails: the value is not always an absolute path.  At
    [file:///C:x/app/vite.config.ts] on Windows the module is the file
    [C:x\app\vite.config.ts], it evaluates, and its alias is [C:x\lib\src]:
    a path relative to the working directory of drive [C:]. *)
Lemma app_alias_not_absolute :
  is_file_url drive_relative_url = true /\
  NodeUrl.fileURLToPath id win32 drive_relative_url
    = Returns "C:x\app\vite.config.ts" /\
  app_vite_config id (env_at (Some drive_relative_url) win32)
    = Returns (app_config_literal "C:x\lib\src") /\
  is_absolute win32 "C:x\lib\src" = false /\
  ~ (forall domainToUnicode env cfg,
       app_vite_config domainToUnicode env = Returns cfg ->
       exists p,
         cfg = app_config_literal p /\
         is_absolute (platform env) p = true).
Proof.
  do 4 (split; [by vm_compute|]).
  intros H.
  destruct (H id (env_at (Some drive_relative_url) win32)
              (app_config_literal "C:x\lib\src"))
    as (p & Hp & Habs); [by vm_compute|].
  injection Hp as <-. by vm_compute in Habs.
Qed.

(** C2. The library module's default export is exactly
    [{ build: { lib: { entry: 'src/index.ts', fileName: 'lib',
    formats: ['es'] } } }] in every environment: the descriptor under
    [build.lib] has the three fields [entry], [fileName] and [formats], and
    no key stands beside [build] or beside [lib]. *)
Theorem lib_config_contents env :
  exists cfg build descriptor,
    lib_vite_config env = Returns cfg /\
    own_keys cfg = ["build"] /\
    get_property "build" cfg = Some build /\
    own_keys build = ["lib"] /\
    get_property "lib" build = Some descriptor /\
    own_keys descriptor = ["entry"; "fileName"; "formats"] /\
    get_property "entry" descriptor = Some (JSString "src/index.ts") /\
    get_property "fileName" descriptor = Some (JSString "lib") /\
    get_property "formats" descriptor = Some (JSArray [JSString "es"]).
Proof.
  eexists _, _, _. unfold lib_vite_config, Vite.defineConfig.
  split; [reflexivity|]. cbn. by repeat split.
Qed.

(** ** What the configurations depend on *)




(** ** When evaluation succeeds *)

(** C4 (amended). The library module evaluates to its record in every
    environment.  The application module evaluates to a record
    [{ resolve: { alias: { '@test/lib': p } } }] whenever its own URL is a
    [file:] URL that names a path of the platform: one [fileURLToPath]
    converts (on POSIX no host; escapes that decode and encode no
    separator) and that, on Windows without a host, starts with a drive
    segment. *)
Theorem config_modules_evaluate domainToUnicode :
  (forall env,
     lib_vite_config env =
       Returns (JSObject [("build", JSObject [("lib", JSObject
         [("entry", JSString "src/index.ts");
          ("fileName", JSString "lib");
          ("formats", JSArray [JSString "es"])])])])) /\
  (forall env base,
     import_meta_url env = Some base ->
     is_file_url base = true ->
     names_native_path domainToUnicode (platform env) base = true ->
     exists p,
       app_vite_config domainToUnicode env = Returns (app_config_literal p)).
Proof.
  split; [done|]. intros env base Hb Hf Hn.
  destruct (app_lib_src_at_native_file_url domainToUnicode env base Hb Hf Hn)
    as [p Hp].
  exists p. by rewrite app_vite_config_unfold, Hp.
Qed.

Lemma config_modules_evaluate_witness :
  import_meta_url (env_at (Some drive_workspace_url) win32)
    = Some drive_workspace_url /\
  is_file_url drive_workspace_url = true /\
  names_native_path id win32 drive_workspace_url = true /\
  exists p,
    app_vite_config id (env_at (Some drive_workspace_url) win32)
      = Returns (app_config_literal p).
Proof.
  repeat split.
  apply (proj2 (config_modules_evaluate id)
           (env_at (Some drive_workspace_url) win32) drive_workspace_url);
    vm_compute; reflexivity.
Defined.

(** C4 as stated fails: [file://example.com/ws/packages/app/vite.config.ts]
    is a [file:] URL, and on POSIX [fileURLToPath] rejects its host; on
    Windows it rejects [file:///ws/packages/app/vite.config.ts], which
    names no drive. *)
Lemma app_throws_at_remote_file_url :
  is_file_url remote_url = true /\
  app_vite_config id (env_at (Some remote_url) posix)
    = Throws ERR_INVALID_FILE_URL_HOST /\
  is_file_url workspace_url = true /\
  app_vite_config id (env_at (Some workspace_url) win32)
    = Throws ERR_INVALID_FILE_URL_PATH /\
  ~ (forall domainToUnicode env base,
       import_meta_url env = Some base ->
       is_file_url base = true ->
       returned (app_vite_config domainToUnicode env) = true).
Proof.
  do 4 (split; [by vm_compute|]).
  intros H.
  specialize (H id (env_at (Some remote_url) posix) remote_url eq_refl).
  by vm_compute in H; specialize (H eq_refl).
Qed.

(** ** The records in the heap *)

(** C5. Let the evaluation of one of the two modules construct the record
    [r].  Whatever evaluations of the repository's modules follow, [r]
    reads back as the module's configuration, every object of the heap
    keeps its properties, and what [r] refers to are objects of its own
    evaluation only: none that an earlier or a later evaluation, of the
    other module or of the same, has allocated. *)
Theorem config_records_immutable domainToUnicode m env σ0 r σ1 :
  evaluate domainToUnicode m env σ0 = Returns (r, σ1) ->
  exists config,
    default_export domainToUnicode m env = Returns config /\
    (forall ops,
       read_back (literal_depth config) (run domainToUnicode ops σ1) r
         = Some config) /\
    (forall ops l o,
       σ1 !! l = Some o -> run domainToUnicode ops σ1 !! l = Some o) /\
    (forall ops l,
       reaches (run domainToUnicode ops σ1) r l ->
       l ∈ dom σ1 /\ l ∉ dom σ0).
Proof.
  unfold evaluate.
  intros (config & Hc & [= Hs])%Outcome_bind_returns.
  destruct (store_literal_spec config _ _ _ Hs) as (E & F & C & R).
  exists config. split; [done|]. split; [|split].
  - intros ops. apply R; [apply run_extends|done].
  - intros ops l o Hl. eapply lookup_weaken; [exact Hl|apply run_extends].
  - intros ops l. apply (reaches_own_objects σ0 σ1); [apply run_extends|done..].
Qed.

Lemma config_records_immutable_witness :
  let σ1 := (store_literal lib_config_literal ∅).2 in
  evaluate id LibViteConfig (env_at None posix) ∅ = Returns (VRef 4, σ1) /\
  exists config,
    default_export id LibViteConfig (env_at None posix) = Returns config /\
    (forall ops,
       read_back (literal_depth config) (run id ops σ1) (VRef 4)
         = Some config) /\
    (forall ops l o, σ1 !! l = Some o -> run id ops σ1 !! l = Some o) /\
    (forall ops l,
       reaches (run id ops σ1) (VRef 4) l ->
       l ∈ dom σ1 /\ l ∉ dom (∅ : Heap)).
Proof.
  intros σ1. split; [by vm_compute|].
  apply (config_records_immutable id LibViteConfig (env_at None posix) ∅).
  by vm_compute.
Defined.

(** ** Determinism *)

(** C7 (amended). The library module reads no input: any two evaluations
    yield the same record.  The application module's result is a function
    of two inputs, its own URL and the platform: two evaluations that agree
    on both yield the same result, whatever the working directory and the
    files of the workspace, the other configuration file among them.
    Neither module imports a file by its path. *)
Theorem config_modules_deterministic domainToUnicode :
  (forall env1 env2, lib_vite_config env1 = lib_vite_config env2) /\
  (forall url p cwd1 cwd2 files1 files2,
     app_vite_config domainToUnicode (mkEnv url p cwd1 files1) =
     app_vite_config domainToUnicode (mkEnv url p cwd2 files2)) /\
  (forall env1 env2,
     import_meta_url env1 = import_meta_url env2 ->
     platform env1 = platform env2 ->
     app_vite_config domainToUnicode env1 =
     app_vite_config domainToUnicode env2) /\
  existsb is_path_specifier
    (lib_vite_config_imports ++ app_vite_config_imports) = false.
Proof.
  split; [done|]. split; [done|]. split; [|done].
  intros env1 env2 Hu Hp.
  by rewrite !app_vite_config_unfold, !app_lib_src_unfold, Hu, Hp.
Qed.

Lemma config_modules_deterministic_witness :
  import_meta_url (mkEnv (Some workspace_url) posix "/" ∅) =
  import_meta_url (mkEnv (Some workspace_url) posix "/ws/packages/app"
                     {["/ws/packages/lib/vite.config.ts" := "export default {}"]}) /\
  platform (mkEnv (Some workspace_url) posix "/" ∅) =
  platform (mkEnv (Some workspace_url) posix "/ws/packages/app"
              {["/ws/packages/lib/vite.config.ts" := "export default {}"]}) /\
  app_vite_config id (mkEnv (Some workspace_url) posix "/" ∅) =
  app_vite_config id
    (mkEnv (Some workspace_url) posix "/ws/packages/app"
       {["/ws/packages/lib/vite.config.ts" := "export default {}"]}).
Proof.
  split; [reflexivity|]. split; [reflexivity|].
  apply (proj1 (proj2 (proj2 (config_modules_deterministic id))));
    reflexivity.
Defined.

(** C7 as stated fails: the module URL alone does not determine the record.
    At [file:///C:/ws/packages/app/vite.config.ts] the alias is
    [/C:/ws/packages/lib/src] on POSIX and [C:\ws\packages\lib\src] on
    Windows. *)
Lemma app_config_depends_on_platform :
  app_vite_config id (env_at (Some drive_workspace_url) posix)
    = Returns (app_config_literal "/C:/ws/packages/lib/src") /\
  app_vite_config id (env_at (Some drive_workspace_url) win32)
    = Returns (app_config_literal "C:\ws\packages\lib\src") /\
  ~ (forall domainToUnicode env1 env2,
       import_meta_url env1 = import_meta_url env2 ->
       app_vite_config domainToUnicode env1 =
       app_vite_config domainToUnicode env2).
Proof.
  split; [by vm_compute|]. split; [by vm_compute|].
  intros H.
  specialize (H id (env_at (Some drive_workspace_url) posix)
                (env_at (Some drive_workspace_url) win32) eq_refl).
  by vm_compute in H.
Qed.

(** ** The path the alias names *)

(** C8 (amended). Let the application module be located at a parsed [file:]
    URL whose path has at least two segments, none of them empty, and does
    not consist of a drive letter and one more segment; and let it evaluate
    with the alias value [p].  Then [p] is the platform's path for the host
    of that URL and the components [dirs ++ [lib; src]], where [dirs] are
    the decoded segments of the module's path without its last two.  [p]
    starts at a root, and is an absolute path when the URL has the root the
    platform needs.  It is normalized: none of its components is empty,
    [..] or [.] or holds a separator, and without a host the components of
    the string [p] are exactly these.  And where the module's own URL has a
    file path, that path is the one of the components
    [dirs ++ [a'; f']], with [a'] the decoded name of the package directory
    and [f'] the decoded name of the module's file, both of them components
    of a normalized path: [p] is the directory [lib/src] beside the package
    directory. *)
Theorem app_alias_normalized domainToUnicode env base pre a f p :
  import_meta_url env = Some base ->
  is_file_url base = true ->
  URLStd.path base = URLStd.Segments (pre ++ [a; f]) ->
  Forall (fun s => s <> "") (pre ++ [a; f]) ->
  at_drive_root (pre ++ [a; f]) = false ->
  app_vite_config domainToUnicode env = Returns (app_config_literal p) ->
  exists dirs,
    decode_segments pre = Returns dirs /\
    p = native_path domainToUnicode (platform env) (URLStd.hostname base)
          (dirs ++ ["lib"; "src"]) /\
    is_rooted (platform env) p = true /\
    (has_native_root (platform env) base = true ->
     is_absolute (platform env) p = true) /\
    Forall (normalized_component (platform env)) (dirs ++ ["lib"; "src"]) /\
    (URLStd.hostname base = "" ->
     split_path (path_separator (platform env)) p =
       root_components (platform env) ++ dirs ++ ["lib"; "src"]) /\
    (forall file,
       NodeUrl.fileURLToPath domainToUnicode (platform env) base
         = Returns file ->
       exists a' f',
         ES.decodeURIComponent a = Returns a' /\
         ES.decodeURIComponent f = Returns f' /\
         Forall (normalized_component (platform env)) [a'; f'] /\
         file = native_path domainToUnicode (platform env)
                  (URLStd.hostname base) (dirs ++ [a'; f']) /\
         (URLStd.hostname base = "" ->
          split_path (path_separator (platform env)) file =
            root_components (platform env) ++ dirs ++ [a'; f'])).
Proof.
  intros Hb Hfile Hp Hne Hdr.
  apply is_file_url_inv in Hfile as (Hs & segs & Hp' & Hsegs).
  rewrite Hp in Hp'. injection Hp' as <-.
  rewrite app_vite_config_unfold.
  intros (p' & Hp' & [= <-])%Outcome_fmap_returns.
  assert (Habs : has_native_root (platform env) base = true ->
                 is_absolute (platform env) p = true).
  { intros Hroot. by apply (app_lib_src_absolute domainToUnicode env base). }
  destruct (app_lib_src_shape _ _ _ Hp')
    as (base' & dirs & Hb' & _ & _ & Hdirs & He & -> & Hroot).
  rewrite Hb in Hb'. injection Hb' as <-.
  assert (Hk : kept_segments base = pre).
  { rewrite (kept_segments_directories_above base _ Hs Hp).
    unfold directories_above. rewrite Hdr. apply removelast_twice. }
  rewrite Hk in Hdirs, He.
  pose proof Hsegs as Hsegs'. rewrite forallb_app in Hsegs'.
  apply andb_true_iff in Hsegs' as [Hpre Haf].
  rewrite (platform_segments_id _ _ Hpre) in Hdirs.
  apply Forall_app in Hne as Hne'. destruct Hne' as [Hne_pre Hne_af].
  assert (Hnorm : Forall (normalized_component (platform env))
                    (dirs ++ ["lib"; "src"])).
  { apply Forall_app. split; [|apply lib_src_normalized].
    by apply (decoded_segments_normalized _ pre). }
  exists dirs. do 5 (split; [done|]). split.
  - intros Hhost. rewrite Hhost.
    rewrite split_native_path; [done|by destruct dirs|done].
  - intros file Hf.
    destruct (fileURLToPath_shape domainToUnicode _ _ _ _ Hs Hp Hf)
      as (ds & Hds & He' & ->).
    rewrite (platform_segments_id _ _ Hsegs) in Hds.
    pose proof (decoded_segments_normalized _ _ _ Hsegs Hne He' Hds) as Hall.
    apply decode_segments_package in Hds
      as (dirs' & a' & f' & Hd' & Ha & Hf' & ->).
    rewrite Hdirs in Hd'. injection Hd' as <-.
    exists a', f'. split; [done|]. split; [done|].
    split; [by apply Forall_app in Hall as [_ ?]|]. split; [done|].
    intros Hhost. rewrite Hhost.
    rewrite split_native_path; [done|by destruct dirs|done].
Qed.

Lemma app_alias_normalized_witness :
  import_meta_url (env_at (Some workspace_url) posix) = Some workspace_url /\
  is_file_url workspace_url = true /\
  app_vite_config id (env_at (Some workspace_url) posix)
    = Returns (app_config_literal "/ws/packages/lib/src") /\
  NodeUrl.fileURLToPath id posix workspace_url
    = Returns "/ws/packages/app/vite.config.ts" /\
  exists dirs,
    decode_segments ["ws"; "packages"] = Returns dirs /\
    "/ws/packages/lib/src" =
      native_path id posix (URLStd.hostname workspace_url)
        (dirs ++ ["lib"; "src"]) /\
    is_rooted posix "/ws/packages/lib/src" = true /\
    (has_native_root posix workspace_url = true ->
     is_absolute posix "/ws/packages/lib/src" = true) /\
    Forall (normalized_component posix) (dirs ++ ["lib"; "src"]) /\
    (URLStd.hostname workspace_url = "" ->
     split_path (path_separator posix) "/ws/packages/lib/src" =
       root_components posix ++ dirs ++ ["lib"; "src"]) /\
    (forall file,
       NodeUrl.fileURLToPath id posix workspace_url = Returns file ->
       exists a' f',
         ES.decodeURIComponent "app" = Returns a' /\
         ES.decodeURIComponent "vite.config.ts" = Returns f' /\
         Forall (normalized_component posix) [a'; f'] /\
         file = native_path id posix (URLStd.hostname workspace_url)
                  (dirs ++ [a'; f']) /\
         (URLStd.hostname workspace_url = "" ->
          split_path (path_separator posix) file =
            root_components posix ++ dirs ++ [a'; f'])).
Proof.
  split; [reflexivity|]. split; [reflexivity|]. split; [by vm_compute|].
  split; [by vm_compute|].
  apply (app_alias_normalized id (env_at (Some workspace_url) posix)
           workspace_url ["ws"; "packages"] "app" "vite.config.ts"
           "/ws/packages/lib/src");
    [reflexivity|reflexivity|reflexivity|
     repeat constructor; discriminate|reflexivity|by vm_compute].
Defined.

(** C8 as stated fails at [file:///C:/vite.config.ts] on POSIX.  The module
    is the file [/C:/vite.config.ts]; the directory beside the one that
    holds it is [/lib/src], but [shorten] keeps the segment [C:] and the
    alias is [/C:/lib/src].  And the value is not always an absolute path:
    at [file:///C:x/app/vite.config.ts] on Windows it is [C:x\lib\src],
    relative to the working directory of drive [C:]. *)
Lemma app_alias_at_drive_root :
  is_file_url drive_root_url = true /\
  NodeUrl.fileURLToPath id posix drive_root_url
    = Returns "/C:/vite.config.ts" /\
  app_vite_config id (env_at (Some drive_root_url) posix)
    = Returns (app_config_literal "/C:/lib/src") /\
  split_path (path_separator posix) "/C:/lib/src" = [""; "C:"; "lib"; "src"] /\
  "" :: sibling_lib_src ["C:"; "vite.config.ts"] = [""; "lib"; "src"] /\
  ~ (forall domainToUnicode env base p file,
       import_meta_url env = Some base ->
       platform env = posix ->
       is_file_url base = true ->
       app_vite_config domainToUnicode env = Returns (app_config_literal p) ->
       NodeUrl.fileURLToPath domainToUnicode (platform env) base
         = Returns file ->
       split_path (path_separator (platform env)) p =
         "" :: sibling_lib_src
                 (tail (split_path (path_separator (platform env)) file))) /\
  is_file_url drive_relative_url = true /\
  app_vite_config id (env_at (Some drive_relative_url) win32)
    = Returns (app_config_literal "C:x\lib\src") /\
  is_absolute win32 "C:x\lib\src" = false.
Proof.
  do 5 (split; [by vm_compute|]). split; [|by vm_compute].
  intros H.
  specialize (H id (env_at (Some drive_root_url) posix) drive_root_url
                "/C:/lib/src" "/C:/vite.config.ts" eq_refl eq_refl eq_refl).
  by vm_compute in H; specialize (H eq_refl eq_refl).
Qed.

(** ** When evaluation fails *)

(** C9. The application module returns only when its own URL parses as a
    [file:] URL with a path of segments.  For a string that is no URL and
    for a URL with an opaque path, [new URL] throws a [TypeError]; for any
    other URL whose scheme is not [file], [fileURLToPath] throws
    [ERR_INVALID_URL_SCHEME]; an [https:] URL and a [data:] URL are
    examples.  The library module returns in every environment. *)
Theorem app_needs_file_url domainToUnicode :
  (forall env,
     import_meta_url env = None ->
     app_vite_config domainToUnicode env = Throws TypeError_InvalidURL) /\
  (forall env base,
     import_meta_url env = Some base ->
     URLStd.scheme base <> "file" ->
     app_vite_config domainToUnicode env =
       if URLStd.has_opaque_path base
       then Throws TypeError_InvalidURL
       else Throws ERR_INVALID_URL_SCHEME) /\
  app_vite_config domainToUnicode (env_at (Some https_url) posix)
    = Throws ERR_INVALID_URL_SCHEME /\
  app_vite_config domainToUnicode (env_at (Some data_url) posix)
    = Throws TypeError_InvalidURL /\
  (forall env, returned (lib_vite_config env) = true /\
               threw (lib_vite_config env) = false).
Proof.
  assert (H2 : forall env base,
     import_meta_url env = Some base ->
     URLStd.scheme base <> "file" ->
     app_vite_config domainToUnicode env =
       if URLStd.has_opaque_path base
       then Throws TypeError_InvalidURL
       else Throws ERR_INVALID_URL_SCHEME).
  { intros env base Hb Hs.
    rewrite app_vite_config_unfold, app_lib_src_unfold, Hb.
    destruct (URLStd.has_opaque_path base); [done|].
    rewrite fileURLToPath_not_file; [done|].
    unfold lib_src_url. by rewrite bool_decide_eq_false_2. }
  split; [|split; [exact H2|split; [|split]]].
  - intros env Hb. by rewrite app_vite_config_unfold, app_lib_src_unfold, Hb.
  - by apply (H2 _ https_url).
  - by apply (H2 _ data_url).
  - done.
Qed.

Lemma app_needs_file_url_witness :
  import_meta_url (env_at None win32) = None /\
  app_vite_config id (env_at None win32) = Throws TypeError_InvalidURL.
Proof.
  split; [reflexivity|].
  apply (proj1 (app_needs_file_url id) (env_at None win32)). reflexivity.
Defined.

(** * Further properties of the application module *)

(** ** Packages side by side *)

Lemma shorten_segments_long sch a b l :
  URLStd.shorten_segments sch (a :: b :: l) = removelast (a :: b :: l).
Proof. reflexivity. Qed.

Lemma kept_of_package_file sch pre a f :
  pre <> [] ->
  URLStd.shorten_segments sch (URLStd.shorten_segments sch (pre ++ [a; f]))
  = pre.
Proof.
  intros Hpre. destruct pre as [|x pre]; [done|].
  assert (H1 : URLStd.shorten_segments sch ((x :: pre) ++ [a; f])
               = (x :: pre) ++ [a]).
  { change ((x :: pre) ++ [a; f]) with (x :: (pre ++ [a; f])).
    destruct (pre ++ [a; f]) as [|y l] eqn:Hl; [by destruct pre|].
    rewrite shorten_segments_long, <- Hl.
    change (x :: pre ++ [a; f]) with ((x :: pre) ++ [a; f]).
    change [a; f] with ([a] ++ [f]). rewrite app_assoc.
    apply removelast_last. }
  rewrite H1.
  change ((x :: pre) ++ [a]) with (x :: (pre ++ [a])).
  destruct (pre ++ [a]) as [|y l] eqn:Hl; [by destruct pre|].
  rewrite shorten_segments_long, <- Hl.
  change (x :: pre ++ [a]) with ((x :: pre) ++ [a]).
  apply removelast_last.
Qed.

(** X1. The alias does not depend on the name of the package directory or
    of the configuration file: two modules whose URLs differ only in the
    last two segments of a path of at least three evaluate alike, be it to
    a record or to an error. *)
Theorem alias_same_in_sibling_packages domainToUnicode u pre a1 f1 a2 f2 p
    cwd1 cwd2 files1 files2 :
  pre <> [] ->
  app_vite_config domainToUnicode
    (mkEnv (Some (URLStd.set_segments u (pre ++ [a1; f1]))) p cwd1 files1) =
  app_vite_config domainToUnicode
    (mkEnv (Some (URLStd.set_segments u (pre ++ [a2; f2]))) p cwd2 files2).
Proof.
  intros Hpre. rewrite !app_vite_config_unfold, !app_lib_src_unfold.
  cbn [import_meta_url platform].
  change (URLStd.has_opaque_path (URLStd.set_segments u ?s)) with false.
  cbv iota. unfold lib_src_url, kept_segments.
  cbn [URLStd.set_segments URLStd.scheme URLStd.segments_of URLStd.path
       URLStd.username URLStd.password URLStd.host URLStd.port].
  by rewrite !kept_of_package_file.
Qed.

Lemma alias_same_in_sibling_packages_witness :
  ["ws"; "packages"] <> [] /\
  app_vite_config id
    (mkEnv (Some (URLStd.set_segments workspace_url
                    (["ws"; "packages"] ++ ["app"; "vite.config.ts"])))
       posix "/" ∅) =
  app_vite_config id
    (mkEnv (Some (URLStd.set_segments workspace_url
                    (["ws"; "packages"] ++ ["admin"; "vite.config.mts"])))
       posix "/ws" ∅).
Proof.
  split; [discriminate|].
  apply (alias_same_in_sibling_packages id workspace_url ["ws"; "packages"]).
  discriminate.
Defined.

(** ** What the module reads of its URL *)

(** X2. Of its own URL the module reads the scheme, the host and the path
    only: two URLs that agree on these evaluate alike, whatever their
    credentials, port, query and fragment are.  A module loaded as
    [vite.config.ts?t=1700000000000] evaluates as the module loaded without
    the query does. *)
Theorem alias_reads_scheme_host_path domainToUnicode u v p
    cwd1 cwd2 files1 files2 :
  URLStd.scheme u = URLStd.scheme v ->
  URLStd.host u = URLStd.host v ->
  URLStd.path u = URLStd.path v ->
  app_vite_config domainToUnicode (mkEnv (Some u) p cwd1 files1) =
  app_vite_config domainToUnicode (mkEnv (Some v) p cwd2 files2).
Proof.
  intros Hs Hh Hp. rewrite !app_vite_config_unfold, !app_lib_src_unfold.
  cbn [import_meta_url platform].
  unfold URLStd.has_opaque_path. rewrite Hp.
  destruct (URLStd.path v) as [o|segs] eqn:Hpv; [done|].
  destruct (decide (URLStd.scheme v = "file")) as [Hf|Hf].
  - unfold lib_src_url, kept_segments, URLStd.segments_of.
    rewrite Hs, Hh, Hp, Hpv. by rewrite bool_decide_eq_true_2.
  - rewrite !fileURLToPath_not_file; [done|..];
      unfold lib_src_url; rewrite ?Hs; by rewrite bool_decide_eq_false_2.
Qed.

Lemma alias_reads_scheme_host_path_witness :
  app_vite_config id (mkEnv (Some workspace_url) posix "/" ∅) =
  app_vite_config id
    (mkEnv (Some (with_query_and_fragment workspace_url
                    (Some "t=1700000000000") None))
       posix "/ws" ∅).
Proof.
  apply (alias_reads_scheme_host_path id workspace_url
           (with_query_and_fragment workspace_url
              (Some "t=1700000000000") None));
    reflexivity.
Defined.

(** ** The directory above *)

Section Parent.
Import URLStd.

Lemma path_state_parent url :
  has_opaque_path url = false ->
  path_state ".." "" url =
    set_segments url
      (shorten_segments (scheme url) (segments_of url) ++ [""]).
Proof.
  intros H. destruct url as [sch us pw h po [o|segs] q f]; [done|].
  reflexivity.
Qed.

Lemma URL_constructor_parent base :
  URL_constructor ".." (Some base) =
    if has_opaque_path base then Throws TypeError_InvalidURL
    else Returns (parent_directory_url base).
Proof.
  unfold URL_constructor, basic_URL_parser.
  change (is_plain_reference "..") with true. cbv iota.
  unfold no_scheme_state, parent_directory_url, kept_segments.
  destruct (has_opaque_path base) eqn:Ho; [done|].
  case_bool_decide as Hs.
  - unfold file_state.
    change (starts_with_windows_drive_letter "..") with false. cbv iota.
    rewrite path_state_parent.
    + destruct base as [sch us pw h po [o|segs] q f]; [done|].
      cbn in Hs. by subst.
    + by destruct base as [sch us pw h po [o|segs] q f].
  - unfold relative_state. cbv iota. rewrite path_state_parent.
    + by destruct base as [sch us pw h po [o|segs] q f].
    + by destruct base as [sch us pw h po [o|segs] q f].
Qed.

End Parent.

Lemma win32_local_lib_src X :
  win32_local (X +:+ "\lib\src") =
  (fun dir => dir +:+ "lib\src") <$> win32_local (X +:+ "\").
Proof.
  destruct X as [|c0 [|l [|sep X]]]; [done..| |].
  - rewrite !append_cons, !append_nil_l. unfold win32_local. cbv zeta.
    change (negb (Ascii.eqb "\" ":")) with true.
    by rewrite !orb_true_r.
  - rewrite !append_cons. unfold win32_local. cbv zeta.
    destruct (_ || _ || _); [done|].
    rewrite !string_tail_substring. cbn [fmap Outcome_fmap].
    by rewrite !append_cons, append_assoc.
Qed.

Lemma parent_directory_url_file base :
  URLStd.scheme base = "file" ->
  URLStd.has_opaque_path base = false ->
  URLStd.scheme (parent_directory_url base) = "file" /\
  URLStd.path (parent_directory_url base)
    = URLStd.Segments (kept_segments base ++ [""]) /\
  URLStd.hostname (parent_directory_url base) = URLStd.hostname base /\
  URLStd.scheme (lib_src_url base) = "file" /\
  URLStd.path (lib_src_url base)
    = URLStd.Segments (kept_segments base ++ ["lib"; "src"]) /\
  URLStd.hostname (lib_src_url base) = URLStd.hostname base.
Proof.
  intros Hs Ho. unfold parent_directory_url, lib_src_url, URLStd.hostname.
  by rewrite bool_decide_eq_true_2.
Qed.

(** X3. The alias is the path of the directory above the package, followed
    by [lib/src] in the platform's syntax:
    [fileURLToPath(new URL('../lib/src', u))] is
    [fileURLToPath(new URL('..', u)) + 'lib/src'], and the one throws what
    the other throws. *)
Theorem alias_is_parent_directory_plus_lib_src domainToUnicode env :
  app_lib_src domainToUnicode env =
    (fun dir => dir +:+ lib_src_suffix (platform env)) <$>
      (url ← URLStd.URL_constructor ".." (import_meta_url env);
       NodeUrl.fileURLToPath domainToUnicode (platform env) url).
Proof.
  rewrite app_lib_src_unfold.
  destruct (import_meta_url env) as [base|]; [|done].
  rewrite URL_constructor_parent.
  destruct (URLStd.has_opaque_path base) eqn:Ho; [done|].
  cbn [mbind Outcome_bind].
  destruct (decide (URLStd.scheme base = "file")) as [Hs|Hs].
  2:{ rewrite !fileURLToPath_not_file; [done|..].
      - unfold parent_directory_url. by rewrite bool_decide_eq_false_2.
      - unfold lib_src_url. by rewrite bool_decide_eq_false_2. }
  destruct (parent_directory_url_file base Hs Ho)
    as (Hs1 & Hp1 & Hh1 & Hs2 & Hp2 & Hh2).
  destruct (platform env).
  - rewrite (fileURLToPath_posix _ _ _ Hs1 Hp1),
            (fileURLToPath_posix _ _ _ Hs2 Hp2), Hh1, Hh2.
    destruct (negb _); [done|].
    rewrite !existsb_app.
    change (existsb _ ["lib"; "src"]) with false.
    change (existsb (NodeUrl.has_encoded_separator false) [""]) with false.
    destruct (existsb _ (kept_segments base)); [done|]. cbn [orb].
    rewrite !decode_segments_app.
    destruct (decode_segments (kept_segments base)) as [dirs| |]; [|done..].
    change (decode_segments ["lib"; "src"]) with (Returns ["lib"; "src"]).
    change (decode_segments [""]) with (Returns [""]).
    cbn [mbind Outcome_bind fmap Outcome_fmap lib_src_suffix].
    rewrite !join_segments_app. cbn [join_segments].
    rewrite !append_nil_l, !append_nil_r.
    by rewrite append_assoc.
  - rewrite (fileURLToPath_win32 _ _ _ Hs1 Hp1),
            (fileURLToPath_win32 _ _ _ Hs2 Hp2), Hh1, Hh2.
    rewrite !existsb_app.
    change (existsb _ ["lib"; "src"]) with false.
    change (existsb (NodeUrl.has_encoded_separator true) [""]) with false.
    destruct (existsb _ (kept_segments base)); [done|]. cbn [orb].
    rewrite !fmap_app, !decode_segments_app.
    destruct (decode_segments (_ <$> kept_segments base)) as [dirs| |];
      [|done..].
    change (decode_segments (_ <$> ["lib"; "src"]))
      with (Returns ["lib"; "src"]).
    change (decode_segments (_ <$> [""])) with (Returns [""]).
    cbn [mbind Outcome_bind lib_src_suffix].
    rewrite !join_segments_app.
    change (join_segments "\" ["lib"; "src"]) with "\lib\src".
    change (join_segments "\" [""]) with "\".
    destruct (negb _).
    + cbn [fmap Outcome_fmap]. by rewrite !append_assoc.
    + apply win32_local_lib_src.
Qed.

(** ** When the module evaluates, and what it throws *)

Lemma Decode_outcome_bounded n : forall s pending,
  (String.length s <= n)%nat ->
  ES.Decode pending s = Throws URIError \/
  exists d, ES.Decode pending s = Returns d.
Proof.
  induction n as [|n IH]; intros s pending Hn.
  - destruct s; [|simpl in Hn; lia].
    destruct pending as [[j Octets]|]; [by left|right; by eexists].
  - destruct pending as [[j Octets]|].
    + destruct s as [|C [|h1 [|h2 r]]]; try by left.
      cbn [ES.Decode].
      destruct (Ascii.eqb C "%"); [|by left].
      destruct (ES.ParseHexOctet h1 h2); [|by left].
      assert (Hr : (String.length r <= n)%nat) by (simpl in Hn; lia).
      assert (Hlast : match ES.utf8_code_point (Octets ++ [n0]) with
                      | Some _ =>
                          String.append (ES.string_of_octets (Octets ++ [n0]))
                            <$> ES.Decode None r
                      | None => Throws URIError
                      end = Throws URIError \/
                      exists d,
                        match ES.utf8_code_point (Octets ++ [n0]) with
                        | Some _ =>
                            String.append
                              (ES.string_of_octets (Octets ++ [n0]))
                              <$> ES.Decode None r
                        | None => Throws URIError
                        end = Returns d).
      { destruct (ES.utf8_code_point _); [|by left].
        destruct (IH r None Hr) as [-> | [d ->]]; [by left|right; by eexists]. }
      destruct j as [|[|j]]; [done..|]. by apply IH.
    + destruct s as [|C r]; [right; by eexists|]. cbn [ES.Decode].
      destruct (Ascii.eqb C "%").
      * destruct r as [|h1 [|h2 r]]; try by left.
        assert (Hr : (String.length r <= n)%nat) by (simpl in Hn; lia).
        destruct (ES.ParseHexOctet h1 h2); [|by left].
        destruct (ES.leading_ones _) as [|[|k]]; [|by left|].
        -- destruct (IH r None Hr) as [-> | [d ->]];
             [by left|right; by eexists].
        -- destruct (k <? 3)%nat; [|by left]. by apply IH.
      * assert (Hr : (String.length r <= n)%nat) by (simpl in Hn; lia).
        destruct (IH r None Hr) as [-> | [d ->]]; [by left|right; by eexists].
Qed.

Lemma decodeURIComponent_outcome s :
  ES.decodeURIComponent s = Throws URIError \/
  exists d, ES.decodeURIComponent s = Returns d.
Proof. by apply (Decode_outcome_bounded (String.length s)). Qed.

Lemma decode_segments_outcome segs :
  (exists seg, seg ∈ segs /\ ES.decodeURIComponent seg = Throws URIError /\
               decode_segments segs = Throws URIError) \/
  (exists ds, decode_segments segs = Returns ds /\
              Forall2 (fun s d => ES.decodeURIComponent s = Returns d) segs ds).
Proof.
  induction segs as [|s r IH].
  - right. exists []. by split; [|constructor].
  - cbn [decode_segments].
    destruct (decodeURIComponent_outcome s) as [Hs | [d Hs]].
    + left. exists s. rewrite Hs. by repeat split; [left|..].
    + rewrite Hs. cbn [mbind Outcome_bind].
      destruct IH as [(seg & Hin & Hseg & ->) | (ds & -> & Hall)].
      * left. exists seg. by repeat split; [right|..].
      * right. exists (d :: ds). by split; [|constructor].
Qed.

Lemma returned_decode_segments segs :
  returned (decode_segments segs) =
  forallb (fun s => returned (ES.decodeURIComponent s)) segs.
Proof.
  induction segs as [|s r IH]; [done|]. cbn [decode_segments forallb].
  destruct (ES.decodeURIComponent s); [|done..]. cbn.
  rewrite <- IH. by destruct (decode_segments r).
Qed.

Lemma forallb_convertible p segs :
  forallb (convertible_segment p) segs =
  negb (existsb (NodeUrl.has_encoded_separator (rejects_backslash p)) segs) &&
  returned (decode_segments (platform_segment p <$> segs)).
Proof.
  rewrite returned_decode_segments.
  induction segs as [|s r IH]; [done|].
  cbn [forallb existsb fmap list_fmap]. rewrite IH.
  unfold convertible_segment.
  by destruct (NodeUrl.has_encoded_separator _ s),
              (returned (ES.decodeURIComponent _)), (existsb _ r).
Qed.

Lemma letter_check_alpha l :
  (N.lor (code l) 32 <? 97) || (122 <? N.lor (code l) 32)
  = negb (is_ascii_alpha l).
Proof. destruct l as [[] [] [] [] [] [] [] []]; by vm_compute. Qed.

Lemma returned_win32_local c0 d t :
  returned (win32_local (String c0 (d +:+ String "\" t)))
  = starts_with_drive d.
Proof.
  destruct d as [|l [|c d]]; rewrite ?append_cons, ?append_nil_l.
  - unfold win32_local. by destruct t.
  - unfold win32_local. cbv zeta.
    change (negb (Ascii.eqb "\" ":")) with true. by rewrite orb_true_r.
  - unfold win32_local, starts_with_drive. cbv zeta.
    rewrite letter_check_alpha.
    by destruct (is_ascii_alpha l), (Ascii.eqb c ":").
Qed.

Lemma win32_local_outcome s :
  win32_local s = Throws ERR_INVALID_FILE_URL_PATH \/
  exists p, win32_local s = Returns p.
Proof.
  unfold win32_local. destruct s as [|c0 [|l [|sep s]]]; try by left.
  cbv zeta. destruct (_ || _ || _); [by left|right; by eexists].
Qed.

Section Classified.

Variable domainToUnicode : string -> string.

Lemma app_lib_src_classified env :
  (exists p,
     app_lib_src domainToUnicode env = Returns p /\
     evaluates_at (platform env) (import_meta_url env) = true) \/
  (exists e,
     app_lib_src domainToUnicode env = Throws e /\
     evaluates_at (platform env) (import_meta_url env) = false /\
     error_cause env e).
Proof.
  rewrite app_lib_src_unfold. unfold evaluates_at.
  destruct (import_meta_url env) as [base|] eqn:Hb.
  2:{ right. exists TypeError_InvalidURL. cbn. rewrite Hb. auto. }
  destruct (URLStd.has_opaque_path base) eqn:Ho.
  { right. exists TypeError_InvalidURL. cbn. rewrite Hb. eauto 6. }
  cbn [negb andb].
  destruct (decide (URLStd.scheme base = "file")) as [Hs|Hs].
  2:{ right. exists ERR_INVALID_URL_SCHEME.
      rewrite fileURLToPath_not_file
        by (unfold lib_src_url; by rewrite bool_decide_eq_false_2).
      rewrite bool_decide_eq_false_2 by done. cbn. rewrite Hb. eauto 6. }
  rewrite bool_decide_eq_true_2 by done. cbn [andb].
  destruct (parent_directory_url_file base Hs Ho)
    as (_ & _ & _ & Hs2 & Hp2 & Hh2).
  rewrite forallb_convertible.
  destruct (platform env) eqn:Hplat.
  - rewrite (fileURLToPath_posix _ _ _ Hs2 Hp2), Hh2.
    cbn [platform_segment rejects_backslash]. rewrite list_fmap_id.
    case_bool_decide as Hhost; cbn [negb].
    2:{ right. exists ERR_INVALID_FILE_URL_HOST. rewrite andb_false_r.
        cbn. rewrite Hb, Hplat. eauto 6. }
    rewrite andb_true_r, existsb_app.
    change (existsb _ ["lib"; "src"]) with false. rewrite orb_false_r.
    destruct (existsb _ (kept_segments base)) eqn:He.
    { right. exists ERR_INVALID_FILE_URL_PATH. cbn. rewrite Hb, Hplat.
      cbn. eauto 8. }
    cbn [negb andb]. rewrite decode_segments_app.
    destruct (decode_segments_outcome (kept_segments base))
      as [(seg & Hin & Hseg & ->) | (ds & -> & _)].
    + right. exists URIError. cbn. rewrite Hb, Hplat. cbn. eauto 8.
    + left. eexists. split; [|done]. by cbn.
  - rewrite (fileURLToPath_win32 _ _ _ Hs2 Hp2), Hh2.
    cbn [rejects_backslash]. rewrite existsb_app.
    change (existsb _ ["lib"; "src"]) with false. rewrite orb_false_r.
    destruct (existsb _ (kept_segments base)) eqn:He.
    { right. exists ERR_INVALID_FILE_URL_PATH. cbn. rewrite Hb, Hplat.
      cbn. eauto 8. }
    cbn [negb andb]. rewrite fmap_app, decode_segments_app.
    change (decode_segments (_ <$> ["lib"; "src"]))
      with (Returns ["lib"; "src"]).
    change (decode_segments (_ <$> kept_segments base))
      with (decode_segments (platform_segment win32 <$> kept_segments base)).
    destruct (decode_segments_outcome
                (platform_segment win32 <$> kept_segments base))
      as [(seg' & Hin & Hseg & Hds) | (ds & Hds & Hall)]; rewrite Hds.
    + right. exists URIError. cbn.
      apply list_elem_of_fmap in Hin as (seg & -> & Hin).
      rewrite Hb, Hplat. eauto 8.
    + cbn [mbind Outcome_bind returned andb].
      case_bool_decide as Hhost; cbn [negb orb].
      2:{ left. by eexists. }
      unfold first_directory_has_drive.
      destruct (kept_segments base) as [|d k] eqn:Hk.
      { inversion Hall; subst. right. exists ERR_INVALID_FILE_URL_PATH.
        split; [done|]. split; [done|]. cbn. rewrite Hb, Hplat.
        exists base. split; [done|]. right.
        unfold first_directory_has_drive. by rewrite Hk. }
      inversion Hall as [|? d' ? r' Hd Hall']; subst.
      change (replace_char "/" "\" d) with (platform_segment win32 d) in Hd.
      rewrite Hd. rewrite <- app_comm_cons. cbn [join_segments].
      destruct (join_segments_rooted "\" (r' ++ ["lib"; "src"])) as [t Ht];
        [by destruct r'|].
      rewrite Ht.
      pose proof (returned_win32_local "\" d' t) as Hret.
      destruct (win32_local_outcome (String "\" (d' +:+ String "\" t)))
        as [Hw | [p Hw]]; rewrite Hw in Hret |- *; cbn in Hret.
      * right. exists ERR_INVALID_FILE_URL_PATH.
        split; [done|]. split; [done|]. cbn. rewrite Hb, Hplat.
        exists base. split; [done|]. right.
        unfold first_directory_has_drive. by rewrite Hk, Hd.
      * left. by eexists.
Qed.

End Classified.


(** X5. Each error of the application module has its cause in the
    environment: a [TypeError] means that the module's URL did not parse or
    has an opaque path; [ERR_INVALID_URL_SCHEME] that its scheme is not
    [file]; [ERR_INVALID_FILE_URL_HOST] that the platform is POSIX and the
    URL has a host; [ERR_INVALID_FILE_URL_PATH] that a segment above the
    package directory holds an encoded separator, or that on Windows the
    URL has neither a host nor a drive; [URIError] that such a segment has
    an escape that does not decode. *)
Theorem app_error_has_cause domainToUnicode env e :
  app_vite_config domainToUnicode env = Throws e -> error_cause env e.
Proof.
  rewrite app_vite_config_unfold.
  destruct (app_lib_src_classified domainToUnicode env)
    as [(p & -> & _) | (e' & -> & _ & Hcause)]; [done|].
  by intros [= <-].
Qed.

Lemma app_error_has_cause_witness :
  app_vite_config id (env_at (Some remote_url) posix)
    = Throws ERR_INVALID_FILE_URL_HOST /\
  error_cause (env_at (Some remote_url) posix) ERR_INVALID_FILE_URL_HOST.
Proof.
  split; [by vm_compute|].
  apply (app_error_has_cause id (env_at (Some remote_url) posix)).
  by vm_compute.
Defined.

(** ** The alias and the path of the module's own file *)


Section ModuleFile.

Variable domainToUnicode : string -> string.


End ModuleFile.



(** ** The two platforms *)

Lemma replace_segments_id ds :
  Forall (fun d => no_separator posix d = true) ds ->
  replace_char "/" "\" <$> ds = ds.
Proof.
  induction 1 as [|d ds Hd _ IH]; [done|].
  cbn [fmap list_fmap]. fold (fmap (M := list) (replace_char "/" "\") ds).
  by rewrite IH, (replace_char_id "/" "\" d Hd).
Qed.

(** X7. Where the application module evaluates on both platforms, at a
    [file:] URL whose segments are path segments, the Windows alias is the
    POSIX alias with every [/] turned into a backslash and without the
    first of them: [/C:/ws/packages/lib/src] and [C:\ws\packages\lib\src]. *)
Theorem alias_win32_from_posix domainToUnicode u cwd1 cwd2 files1 files2
    pp pw :
  is_file_url u = true ->
  app_vite_config domainToUnicode (mkEnv (Some u) posix cwd1 files1)
    = Returns (app_config_literal pp) ->
  app_vite_config domainToUnicode (mkEnv (Some u) win32 cwd2 files2)
    = Returns (app_config_literal pw) ->
  pw = string_tail (replace_char "/" "\" pp).
Proof.
  intros (Hs & segs & Hp & Hsegs)%is_file_url_inv.
  rewrite !app_vite_config_unfold.
  intros (p1 & H1 & [= ->])%Outcome_fmap_returns
         (p2 & H2 & [= ->])%Outcome_fmap_returns.
  assert (Hhost : URLStd.hostname u = "").
  { destruct (app_lib_src_classified domainToUnicode
                (mkEnv (Some u) posix cwd1 files1))
      as [(p & _ & He) | (e & He & _)]; [|by rewrite H1 in He].
    cbn [import_meta_url platform evaluates_at] in He.
    apply andb_true_iff in He as [_ He]. by apply bool_decide_eq_true in He. }
  assert (Hkept : forallb is_url_path_segment (kept_segments u) = true).
  { unfold kept_segments, URLStd.segments_of. rewrite Hp.
    destruct (kept_prefix (URLStd.scheme u) segs) as [rest Hrest].
    rewrite Hrest, forallb_app in Hsegs.
    by apply andb_true_iff in Hsegs as [? _]. }
  destruct (app_lib_src_shape _ _ _ H1)
    as (b1 & dirs1 & [= <-] & _ & _ & Hd1 & He1 & -> & _).
  destruct (app_lib_src_shape _ _ _ H2)
    as (b2 & dirs2 & [= <-] & _ & _ & Hd2 & _ & -> & _).
  cbn [platform] in *.
  rewrite (platform_segments_id posix _ Hkept) in Hd1.
  rewrite (platform_segments_id win32 _ Hkept) in Hd2.
  rewrite Hd1 in Hd2. injection Hd2 as <-.
  cbn [native_path]. rewrite Hhost, bool_decide_eq_true_2 by done.
  rewrite replace_join, replace_segments_id; [done|].
  apply Forall_app. split.
  - eapply Forall_impl;
      [by apply (decoded_segments_clean posix (kept_segments u))|].
    by intros d (_ & _ & ?).
  - by repeat constructor.
Qed.

Lemma alias_win32_from_posix_witness :
  is_file_url drive_workspace_url = true /\
  app_vite_config id (mkEnv (Some drive_workspace_url) posix "/" ∅)
    = Returns (app_config_literal "/C:/ws/packages/lib/src") /\
  app_vite_config id (mkEnv (Some drive_workspace_url) win32 "C:\" ∅)
    = Returns (app_config_literal "C:\ws\packages\lib\src") /\
  "C:\ws\packages\lib\src"
    = string_tail (replace_char "/" "\" "/C:/ws/packages/lib/src").
Proof.
  split; [reflexivity|]. split; [by vm_compute|]. split; [by vm_compute|].
  apply (alias_win32_from_posix id drive_workspace_url "/" "C:\" ∅ ∅);
    by vm_compute.
Defined.

(** ** Directories without escapes *)

Lemma existsb_encoded_unescaped bs segs :
  forallb is_unescaped segs = true ->
  existsb (NodeUrl.has_encoded_separator bs) segs = false.
Proof.
  induction segs as [|s r IH]; [done|]. cbn [forallb existsb].
  intros [Hs Hr]%andb_true_iff.
  by rewrite (has_encoded_separator_unescaped bs s Hs), (IH Hr).
Qed.

(** X8. On POSIX, at a [file:] URL without host whose directories above the
    package hold no [%], the module evaluates, and its alias is the
    [pathname] of the URL that [new URL('../lib/src', import.meta.url)]
    builds, character by character. *)
Theorem alias_is_pathname_when_unescaped domainToUnicode env base :
  import_meta_url env = Some base ->
  platform env = posix ->
  URLStd.scheme base = "file" ->
  URLStd.has_opaque_path base = false ->
  URLStd.hostname base = "" ->
  forallb is_unescaped (kept_segments base) = true ->
  exists url,
    URLStd.URL_constructor "../lib/src" (Some base) = Returns url /\
    app_vite_config domainToUnicode env
      = Returns (app_config_literal (URLStd.pathname url)).
Proof.
  intros Hb Hplat Hs Ho Hhost Hun. exists (lib_src_url base).
  rewrite URL_constructor_lib_src, Ho. split; [done|].
  rewrite app_vite_config_unfold, app_lib_src_unfold, Hb, Ho, Hplat.
  destruct (parent_directory_url_file base Hs Ho)
    as (_ & _ & _ & Hs2 & Hp2 & Hh2).
  rewrite (fileURLToPath_posix _ _ _ Hs2 Hp2), Hh2, Hhost.
  rewrite bool_decide_eq_true_2 by done. cbn [negb].
  assert (Hall : forallb is_unescaped (kept_segments base ++ ["lib"; "src"])
                 = true) by (by rewrite forallb_app, Hun).
  rewrite (existsb_encoded_unescaped _ _ Hall).
  rewrite (decode_segments_unescaped _ Hall).
  unfold URLStd.pathname. by rewrite Hp2, serialize_segments_join.
Qed.

Lemma alias_is_pathname_when_unescaped_witness :
  exists url,
    URLStd.URL_constructor "../lib/src" (Some workspace_url) = Returns url /\
    app_vite_config id (env_at (Some workspace_url) posix)
      = Returns (app_config_literal (URLStd.pathname url)).
Proof.
  apply (alias_is_pathname_when_unescaped id
           (env_at (Some workspace_url) posix) workspace_url);
    reflexivity.
Defined.

(** ** Modules next to the root *)

(** X9. A module whose path has at most two segments has no directory above
    its package: [..] stays at the root.  Without a host, and unless the
    first segment is a drive letter, the POSIX alias is then [/lib/src],
    and on Windows the module throws, as no drive is left. *)
Theorem alias_next_to_root domainToUnicode env base segs :
  import_meta_url env = Some base ->
  URLStd.scheme base = "file" ->
  URLStd.path base = URLStd.Segments segs ->
  URLStd.hostname base = "" ->
  (List.length segs <= 2)%nat ->
  at_drive_root segs = false ->
  app_vite_config domainToUnicode env =
    match platform env with
    | posix => Returns (app_config_literal "/lib/src")
    | win32 => Throws ERR_INVALID_FILE_URL_PATH
    end.
Proof.
  intros Hb Hs Hp Hhost Hlen Hdr.
  assert (Ho : URLStd.has_opaque_path base = false)
    by (unfold URLStd.has_opaque_path; by rewrite Hp).
  assert (Hk : kept_segments base = []).
  { unfold kept_segments, URLStd.segments_of. rewrite Hp.
    rewrite (shorten_segments_not_at_drive_root _ _ Hdr).
    destruct segs as [|x [|y [|z segs]]]; [done..|cbn in Hlen; lia]. }
  destruct (parent_directory_url_file base Hs Ho)
    as (_ & _ & _ & Hs2 & Hp2 & Hh2).
  rewrite Hk in Hp2.
  rewrite app_vite_config_unfold, app_lib_src_unfold, Hb, Ho.
  destruct (platform env).
  - rewrite (fileURLToPath_posix _ _ _ Hs2 Hp2), Hh2, Hhost. done.
  - rewrite (fileURLToPath_win32 _ _ _ Hs2 Hp2), Hh2, Hhost. done.
Qed.

Lemma alias_next_to_root_witness :
  app_vite_config id (env_at (Some (file_url "" ["app"; "vite.config.ts"]))
                        win32)
    = Throws ERR_INVALID_FILE_URL_PATH.
Proof.
  apply (alias_next_to_root id
           (env_at (Some (file_url "" ["app"; "vite.config.ts"])) win32)
           (file_url "" ["app"; "vite.config.ts"]) ["app"; "vite.config.ts"]);
    [reflexivity..|cbn; lia|reflexivity].
Defined.

(** ** Distinct workspaces *)

Section Components.

Variable domainToUnicode : string -> string.

Lemma app_lib_src_components p u cwd files a :
  is_file_url u = true ->
  URLStd.hostname u = "" ->
  app_lib_src domainToUnicode (mkEnv (Some u) p cwd files) = Returns a ->
  exists dirs,
    decode_segments (kept_segments u) = Returns dirs /\
    split_path (path_separator p) a =
      root_components p ++ dirs ++ ["lib"; "src"].
Proof.
  intros (Hs & segs & Hp & Hsegs)%is_file_url_inv Hhost Ha.
  assert (Hkept : forallb is_url_path_segment (kept_segments u) = true).
  { unfold kept_segments, URLStd.segments_of. rewrite Hp.
    destruct (kept_prefix (URLStd.scheme u) segs) as [rest Hrest].
    rewrite Hrest, forallb_app in Hsegs.
    by apply andb_true_iff in Hsegs as [? _]. }
  destruct (app_lib_src_shape _ _ _ Ha)
    as (b & dirs & [= <-] & _ & _ & Hd & He & -> & _).
  cbn [platform] in *.
  rewrite (platform_segments_id p _ Hkept) in Hd.
  exists dirs. split; [done|].
  assert (Hns : Forall
            (fun d => string_forallb
               (fun c => negb (path_separator p c)) d = true)
            (dirs ++ ["lib"; "src"])).
  { apply Forall_app. split.
    - eapply Forall_impl;
        [by apply (decoded_segments_clean p (kept_segments u));
           [|destruct p|]|].
      by intros d (_ & _ & ?).
    - repeat constructor; by destruct p. }
  destruct p; cbn [native_path root_components].
  - by apply split_path_join.
  - rewrite Hhost, bool_decide_eq_true_2 by done.
    destruct (dirs ++ ["lib"; "src"]) as [|d ds] eqn:Hdd;
      [by destruct dirs|].
    by apply split_path_join_tail.
Qed.

End Components.

(** X10. The alias tells the workspaces apart: two modules at [file:] URLs
    without host that evaluate, on one platform, to the same alias have the
    same decoded directories above their packages. *)
Theorem alias_determines_directories domainToUnicode p u v
    cwd1 cwd2 files1 files2 a :
  is_file_url u = true ->
  is_file_url v = true ->
  URLStd.hostname u = "" ->
  URLStd.hostname v = "" ->
  app_vite_config domainToUnicode (mkEnv (Some u) p cwd1 files1)
    = Returns (app_config_literal a) ->
  app_vite_config domainToUnicode (mkEnv (Some v) p cwd2 files2)
    = Returns (app_config_literal a) ->
  decode_segments (kept_segments u) = decode_segments (kept_segments v).
Proof.
  intros Hu Hv Hhu Hhv. rewrite !app_vite_config_unfold.
  intros (a1 & H1 & [= ->])%Outcome_fmap_returns
         (a2 & H2 & [= ->])%Outcome_fmap_returns.
  destruct (app_lib_src_components domainToUnicode _ _ _ _ _ Hu Hhu H1)
    as (d1 & -> & E1).
  destruct (app_lib_src_components domainToUnicode _ _ _ _ _ Hv Hhv H2)
    as (d2 & -> & E2).
  rewrite E1 in E2. by apply app_inv_head, app_inv_tail in E2 as ->.
Qed.

Lemma alias_determines_directories_witness :
  decode_segments (kept_segments workspace_url) =
  decode_segments
    (kept_segments (file_url "" ["ws"; "p%61ckages"; "admin"; "vite.config.js"])).
Proof.
  apply (alias_determines_directories id posix workspace_url
           (file_url "" ["ws"; "p%61ckages"; "admin"; "vite.config.js"])
           "/" "/" ∅ ∅ "/ws/packages/lib/src");
    by vm_compute.
Defined.
